(** * SafeLayer backend: risk aggregation, decision engine and agents

    Shallow embedding of the TypeScript sources:
    - [src/src/index.ts] (risk intelligence engine, [analyzeRiskIntelligence]);
    - [src/unnamed/part_004] (decision engine, [decideOnRisk]; wallet checker);
    - [src/unnamed/part_002], [src/unnamed/part_003],
      [src/src/modules/transparency/transparencyChecker.ts] (analyzers);
    - [src/src/openclaw/sentinel.ts] and [src/src/openclaw/guardian.ts].

    Conventions.  JavaScript numbers are modelled as [Q] where fractional
    values can occur (decision engine inputs, weighted sums) and as [Z] where
    the code only ever produces integers (analyzer scores are sums of integer
    weights capped by [Math.min(score, 100)]; the engine's final score comes
    out of [Math.round]).  The weighted sums are computed exactly in [Q]; for
    integer sub-scores the exact value is a multiple of 1/10 with an even
    numerator, so it is never at a half-way point and [Math.round] on the
    IEEE double gives the same integer.  [Date.now()] is an explicit clock
    reading passed as an argument.  Template strings that embed numbers are
    modelled by constructors carrying those numbers. *)

From Stdlib Require Import List String Ascii ZArith QArith Qminmax Qabs Qround Lqa Lia Bool.
Import ListNotations.
Open Scope string_scope.
Open Scope list_scope.
Open Scope Z_scope.

(* ------------------------------------------------------------------ *)
(** ** Small exception monad for [try]/[catch] *)

Inductive Exc (A : Type) : Type :=
| Ok (a : A)
| Throw.
Arguments Ok {A} a.
Arguments Throw {A}.

Definition exc_bind {A B} (m : Exc A) (k : A -> Exc B) : Exc B :=
  match m with Ok a => k a | Throw => Throw end.

Notation "x <- m ;; k" := (exc_bind m (fun x => k))
  (at level 61, m at next level, right associativity).

(** [try { body } catch { handler }]: the handler block may itself throw. *)
Definition try_catch {A} (body : Exc A) (handler : Exc A) : Exc A :=
  match body with Ok a => Ok a | Throw => handler end.

(** [await p.catch(() => d)] on a promise *)
Definition catch_default {A} (m : Exc A) (d : A) : A :=
  match m with Ok a => a | Throw => d end.

(* ------------------------------------------------------------------ *)
(** ** Decision engine ([src/unnamed/part_004], lines 225-330) *)

Module Decision.

Inductive DecisionLevel := ALLOW | WARN | BLOCK.
Inductive DecisionConfidence := low | medium | high.

(** The three templates of [generateReasoning]. *)
Inductive Reasoning :=
| ExceedsThreshold (score threshold : Q)
| ElevatedActivity (score : Q)
| AcceptableRange (score : Q).

Record RiskDecision := mkDecision {
  level : DecisionLevel;
  allowed : bool;
  recommended_action : DecisionLevel;
  confidence : DecisionConfidence;
  riskScore : Q;
  reasoning : Reasoning;
  timestamp : Z
}.

Definition Qltb (x y : Q) : bool := negb (Qle_bool y x).

Definition level_eqb (a b : DecisionLevel) : bool :=
  match a, b with
  | ALLOW, ALLOW | WARN, WARN | BLOCK, BLOCK => true
  | _, _ => false
  end.

Definition getDecisionLevel (score threshold : Q) : DecisionLevel :=
  if Qltb score 30 then ALLOW
  else if Qltb score 60 then WARN
  else BLOCK.

Definition getConfidence (score threshold : Q) : DecisionConfidence :=
  let distance := Qabs (score - threshold) in
  if Qltb 30 distance then high
  else if Qltb 15 distance then medium
  else low.

Definition generateReasoning (score threshold : Q) (lvl : DecisionLevel) : Reasoning :=
  if Qle_bool threshold score && level_eqb lvl BLOCK then ExceedsThreshold score threshold
  else if Qle_bool 30 score && level_eqb lvl WARN then ElevatedActivity score
  else AcceptableRange score.

(** [Math.max(0, Math.min(100, x))] *)
Definition clamp100 (x : Q) : Q := Qmax 0 (Qmin 100 x).

(** [decideOnRisk(riskScore, threshold)]; [now] is the value of [Date.now()]. *)
Definition decideOnRisk (now : Z) (riskScore threshold : Q) : RiskDecision :=
  let score := clamp100 riskScore in
  let thresh := clamp100 threshold in
  let lvl := getDecisionLevel score thresh in
  let allowed := level_eqb lvl ALLOW || level_eqb lvl WARN in
  let conf := getConfidence score thresh in
  let reason := generateReasoning score thresh lvl in
  mkDecision lvl allowed lvl conf score reason now.

(** [shouldSubmitToRegistry] *)
Definition shouldSubmitToRegistry (d : RiskDecision) (threshold : Q) : bool :=
  level_eqb (level d) BLOCK && Qle_bool threshold (riskScore d).

End Decision.

(* ------------------------------------------------------------------ *)
(** ** Evidence flags and analyzer results ([src/src/types/risk.ts]) *)

Module Risk.

Inductive Severity := info | low | medium | high | critical.

Definition severity_eqb (a b : Severity) : bool :=
  match a, b with
  | info, info | low, low | medium, medium | high, high | critical, critical => true
  | _, _ => false
  end.

(** The fields of [EvidenceFlag] that the engine reads; the display
    strings (name, description, evidence, source, links) are kept as one
    [flag_name]. *)
Record EvidenceFlag := mkFlag {
  flag_id : string;
  flag_name : string;
  severity : Severity;
  category : string;
  riskWeight : Z
}.

Record ContractAnalysis := mkContract {
  c_isContract : bool;
  c_flags : list EvidenceFlag;
  c_score : Z
}.

Record OnChainBehaviorAnalysis := mkOnChain {
  o_flags : list EvidenceFlag;
  o_score : Z;
  o_hasDexPair : bool
}.

Record WalletHistoryAnalysis := mkWallet {
  w_flags : list EvidenceFlag;
  w_score : Z;
  w_deployedContracts : list string;
  w_linkedRugpulls : list string
}.

Record TransparencyAnalysis := mkTransparency {
  t_flags : list EvidenceFlag;
  t_score : Z
}.

Record ScamDatabaseAnalysis := mkScam {
  s_flags : list EvidenceFlag;
  s_score : Z;
  s_isBlacklisted : bool;
  s_knownScam : bool;
  s_rugpullHistory : bool
}.

End Risk.

(* ------------------------------------------------------------------ *)
(** ** Risk intelligence engine ([src/src/index.ts], lines 67-290) *)

Module Engine.
Import Risk.

Inductive RiskLevel := VeryLow | Low | Medium | High | VeryHigh.
Inductive AddressType := wallet | contract | token.

(** [Math.round]: round half up. *)
Definition Math_round (q : Q) : Z := Qfloor (q + (1 # 2)).

Definition W_contract : Q := 40 # 100.
Definition W_behavior : Q := 40 # 100.
Definition W_reputation : Q := 20 # 100.

Definition getRiskLevel (score : Z) : RiskLevel :=
  if score <? 20 then VeryLow
  else if score <? 40 then Low
  else if score <? 60 then Medium
  else if score <? 80 then High
  else VeryHigh.

Record RiskBreakdown := mkBreakdown {
  contract_risk : Z;
  behavior_risk : Z;
  reputation_risk : Z
}.

(** The entries of [adjustments]: each template string with its numbers. *)
Inductive Adjustment :=
| CriticalFloor (from to : Z) (count : nat)
| HighFlagFloor (from to : Z) (count : nat)
| ComponentFloor (from to : Z) (maxComponent : Z)
| ScamDbFloor (from to : Z)
| RugpullFloor (from to : Z)
| FlagCountFloor (from to : Z) (count : nat)
| NoAdjustments.

Record ScoreCalculation := mkCalc {
  rawScores : RiskBreakdown;
  adjustments : list Adjustment;
  finalScore : Z
}.

(** The fields of [RiskIntelligenceResult] the agents and claims read
    (the evidence lists, the per-analyzer results and the generated
    explanation text are not modelled). *)
Record RiskIntelligenceResult := mkResult {
  risk_score : Z;
  risk_level : RiskLevel;
  addressType : AddressType;
  breakdown : RiskBreakdown;
  scoreCalculation : ScoreCalculation
}.

(** One floor rule block:
    [if (cond) { const minScore = Math.max(v, finalScore);
                 if (minScore > finalScore) { adjustments.push(..); finalScore = minScore; } }] *)
Definition floorStep (cond : bool) (v : Z) (mk : Z -> Z -> Adjustment)
    (st : Z * list Adjustment) : Z * list Adjustment :=
  let (finalScore, adj) := st in
  if cond then
    let minScore := Z.max v finalScore in
    if finalScore <? minScore then (minScore, adj ++ [mk finalScore minScore])
    else (finalScore, adj)
  else (finalScore, adj).

Definition is_sev (s : Severity) (f : EvidenceFlag) : bool := severity_eqb (severity f) s.

(** Phase 3 onwards of [analyzeRiskIntelligence], given the five
    analyzer results of phases 1 and 2. *)
Definition contractRiskRaw (c : ContractAnalysis) : Z := c_score c.

Definition behaviorRiskRaw (o : OnChainBehaviorAnalysis) (w : WalletHistoryAnalysis) : Z :=
  Z.min (Math_round (inject_Z (o_score o) * (6 # 10) + inject_Z (w_score w) * (4 # 10))) 100.

Definition reputationRiskRaw (t : TransparencyAnalysis) (s : ScamDatabaseAnalysis) : Z :=
  Z.min (Math_round (inject_Z (t_score t) * (5 # 10) + inject_Z (s_score s) * (5 # 10))) 100.

Definition weightedScore (cr br rr : Z) : Z :=
  Math_round (inject_Z cr * W_contract + inject_Z br * W_behavior + inject_Z rr * W_reputation).

Definition allFlags (c : ContractAnalysis) (o : OnChainBehaviorAnalysis)
    (w : WalletHistoryAnalysis) (t : TransparencyAnalysis) (s : ScamDatabaseAnalysis)
    : list EvidenceFlag :=
  c_flags c ++ o_flags o ++ w_flags w ++ t_flags t ++ s_flags s.

Definition analyzeRiskIntelligence (c : ContractAnalysis) (o : OnChainBehaviorAnalysis)
    (w : WalletHistoryAnalysis) (t : TransparencyAnalysis) (s : ScamDatabaseAnalysis)
    : RiskIntelligenceResult :=
  let cr := contractRiskRaw c in
  let br := behaviorRiskRaw o w in
  let rr := reputationRiskRaw t s in
  let st0 := (weightedScore cr br rr, @nil Adjustment) in
  let flags := allFlags c o w t s in
  let criticalFlags := filter (is_sev critical) flags in
  let highFlags := filter (is_sev high) flags in
  let st1 := floorStep (0 <? Z.of_nat (List.length criticalFlags)) 70
               (fun a b => CriticalFloor a b (List.length criticalFlags)) st0 in
  let st2 := floorStep (3 <=? Z.of_nat (List.length highFlags)) 60
               (fun a b => HighFlagFloor a b (List.length highFlags)) st1 in
  let maxComponent := Z.max cr (Z.max br rr) in
  let st3 := floorStep (75 <=? maxComponent) 60
               (fun a b => ComponentFloor a b maxComponent) st2 in
  let st4 := floorStep (s_knownScam s || s_isBlacklisted s) 85 ScamDbFloor st3 in
  let st5 := floorStep (s_rugpullHistory s || (0 <? Z.of_nat (List.length (w_linkedRugpulls w))))
               80 RugpullFloor st4 in
  let significantFlags := filter (fun f => negb (is_sev info f)) flags in
  let st6 := floorStep (7 <=? Z.of_nat (List.length significantFlags)) 65
               (fun a b => FlagCountFloor a b (List.length significantFlags)) st5 in
  let finalScore := Z.min (fst st6) 100 in
  let adj := snd st6 in
  let addrType :=
    if c_isContract c then (if o_hasDexPair o then token else contract) else wallet in
  let bd := mkBreakdown cr br rr in
  let calc := mkCalc bd (match adj with [] => [NoAdjustments] | _ => adj end) finalScore in
  mkResult finalScore (getRiskLevel finalScore) addrType bd calc.

End Engine.

(* ------------------------------------------------------------------ *)
(** ** Analyzers: their fault handling

    Each analyzer is modelled through its control structure: the provider
    calls it guards with [.catch(() => default)] or an inner [try], and the
    rest of its body as an [Exc] computation (which may throw), wrapped in
    the analyzer's outer [try]/[catch] when it has one. *)

Module Analyzers.
Import Risk.

Definition mk_system_flag (id : string) (sev : Severity) (cat : string) (w : Z) : EvidenceFlag :=
  mkFlag id "System" sev cat w.

(** [analyzeContract] ([src/unnamed/part_003], lines 317-584). *)
Definition contract_not_a_contract : ContractAnalysis := mkContract false [] 0.

Definition contract_fallback : ContractAnalysis :=
  mkContract false [mk_system_flag "analysis_failed" medium "contract" 15] 30.

(** [const isContract = code !== '0x' && code.length > 2] *)
Definition isContractCode (code : string) : bool :=
  negb (String.eqb code "0x") && (2 <? Z.of_nat (String.length code)).

(** [getCode] is the provider's [getCode(address)]; [deepAnalysis] is
    steps 2 to 6 of the body (bytecode scan, BscScan checks). *)
Definition analyzeContract (getCode : Exc string) (deepAnalysis : Exc ContractAnalysis)
    : Exc ContractAnalysis :=
  try_catch
    (let code := catch_default getCode "0x" in
     if negb (isContractCode code) then Ok contract_not_a_contract
     else deepAnalysis)
    (Ok contract_fallback).

(** [analyzeOnChainBehavior] ([src/unnamed/part_002], lines 44-375).  The
    fallback returns the [metrics] object as mutated so far; of it the
    engine reads [hasDexPair], passed as [hasDexPairSoFar]. *)
Definition onchain_fallback (hasDexPairSoFar : bool) : OnChainBehaviorAnalysis :=
  mkOnChain [mk_system_flag "analysis_error" medium "onchain" 10] 30 hasDexPairSoFar.

Definition analyzeOnChainBehavior (body : Exc OnChainBehaviorAnalysis) (hasDexPairSoFar : bool)
    : Exc OnChainBehaviorAnalysis :=
  try_catch body (Ok (onchain_fallback hasDexPairSoFar)).

(** [analyzeWalletHistory] ([src/unnamed/part_004], lines 26-223). *)
Definition wallet_fallback : WalletHistoryAnalysis :=
  mkWallet [mk_system_flag "wallet_analysis_error" medium "wallet" 10] 20 [] [].

Definition analyzeWalletHistory (body : Exc WalletHistoryAnalysis) : Exc WalletHistoryAnalysis :=
  try_catch body (Ok wallet_fallback).

(** [checkScamDatabase] ([src/unnamed/part_003], lines 35-175). *)
Definition scam_fallback : ScamDatabaseAnalysis :=
  mkScam [mk_system_flag "scam_check_error" low "scam" 5] 5 false false false.

Definition checkScamDatabase (body : Exc ScamDatabaseAnalysis) : Exc ScamDatabaseAnalysis :=
  try_catch body (Ok scam_fallback).

(** [analyzeTransparency] ([transparencyChecker.ts], lines 99-251): no
    outer [try]; each GitHub search and the README fetch has its own. *)
Record GitHubResult := mkGh {
  gh_found : bool;
  gh_repoUrl : option string;
  gh_daysSinceCommit : option Z;
  gh_contributorsCount : option Z;
  gh_starsCount : option Z
}.

Definition gh_not_found : GitHubResult := mkGh false None None None None.

Definition searchTerms (tokenSymbol contractName : option string) (address : string)
    : list string :=
  (match tokenSymbol with
   | Some sym =>
       if negb (String.eqb sym "UNKNOWN") && negb (String.eqb sym "BNB")
       then [(sym ++ " token bnb")%string; sym] else []
   | None => []
   end) ++
  (match contractName with Some n => [n] | None => [] end) ++
  [substring 0 10 address].

Definition tflag (id : string) (sev : Severity) (w : Z) : EvidenceFlag :=
  mkFlag id "GitHub" sev "transparency" w.

(** Loop state: [githubFound], [result.github], [flags], [score]. *)
Definition GhState : Type := (bool * GitHubResult * list EvidenceFlag * Z)%type.

(** Evaluation of a found repository (the body after [ghResult.found]). *)
Definition evalGitHub (gh : GitHubResult) (flags : list EvidenceFlag) (score : Z)
    : list EvidenceFlag * Z :=
  let '(flags, score) :=
    match gh_daysSinceCommit gh with
    | Some d => if 180 <? d then (flags ++ [tflag "stale_repo" medium 10], score + 10)
               else (flags, score)
    | None => (flags, score)
    end in
  let '(flags, score) :=
    match gh_contributorsCount gh with
    | Some n => if n <=? 1 then (flags ++ [tflag "solo_dev" medium 8], score + 8)
               else (flags, score)
    | None => (flags, score)
    end in
  match gh_starsCount gh with
  | Some n => if n <? 5 then (flags ++ [tflag "low_stars" low 5], score + 5) else (flags, score)
  | None => (flags, score)
  end.

Definition searchStep (searchGitHub : string -> Exc GitHubResult) (st : GhState) (term : string)
    : Exc GhState :=
  let '(found, gh, flags, score) := st in
  if found then Ok st
  else try_catch
         (r <- searchGitHub term ;;
          if gh_found r then
            let '(flags', score') := evalGitHub r flags score in
            Ok (true, r, flags', score')
          else Ok st)
         (Ok st).

Fixpoint searchLoop (searchGitHub : string -> Exc GitHubResult) (terms : list string)
    (st : GhState) : Exc GhState :=
  match terms with
  | [] => Ok st
  | t :: ts => st' <- searchStep searchGitHub st t ;; searchLoop searchGitHub ts st'
  end.

(** [readmeMentionsAuditor] is the README fetch and the auditor scan. *)
Definition analyzeTransparency (tokenSymbol contractName : option string) (address : string)
    (searchGitHub : string -> Exc GitHubResult) (readmeMentionsAuditor : Exc bool)
    : Exc TransparencyAnalysis :=
  st <- searchLoop searchGitHub (searchTerms tokenSymbol contractName address)
          (false, gh_not_found, [], 0) ;;
  let '(found, gh, flags, score) := st in
  let '(flags, score) :=
    if negb found then (flags ++ [tflag "no_github" medium 12], score + 12) else (flags, score) in
  auditDetected <-
    (if gh_found gh && (match gh_repoUrl gh with Some _ => true | None => false end)
     then try_catch readmeMentionsAuditor (Ok false)
     else Ok false) ;;
  let '(flags, score) :=
    if negb auditDetected then (flags ++ [tflag "no_audit" medium 12], score + 12)
    else (flags, score) in
  let '(flags, score) := (flags ++ [tflag "team_not_doxxed" low 8], score + 8) in
  Ok (mkTransparency flags (Z.min score 100)).

End Analyzers.

(* ------------------------------------------------------------------ *)
(** ** Risk Guardian ([src/src/openclaw/guardian.ts], lines 49-200) *)

Module Guardian.
Import Decision.

Record GuardianConfig := mkGuardianConfig {
  g_threshold : Q;
  g_strictMode : bool
}.

Record GuardianState := mkGuardianState {
  checksTotal : nat;
  errorsTotal : nat;
  blockedCount : nat;
  allowedCount : nat;
  lastCheck : option Z
}.

Inductive ResponseReasoning :=
| FromDecision (r : Reasoning)
| CouldNotComplete.  (* "Could not complete risk analysis. Interaction blocked for safety." *)

Record GuardianCheckResponse := mkResponse {
  r_allowed : bool;
  r_level : DecisionLevel;
  r_recommended_action : DecisionLevel;
  r_riskScore : Q;
  r_reasoning : ResponseReasoning;
  r_confidence : DecisionConfidence
}.

Definition formatResponse (d : RiskDecision) : GuardianCheckResponse :=
  mkResponse (allowed d) (level d) (recommended_action d) (riskScore d)
    (FromDecision (reasoning d)) (confidence d).

(** The response of the [catch] block. *)
Definition failSafeResponse : GuardianCheckResponse :=
  mkResponse false BLOCK BLOCK 100 CouldNotComplete high.

(** [checkAddress(request)].  [analysis] is the outcome of
    [await analyzeRiskIntelligence(targetAddress)]; [escalation] is the
    outcome of the auto-trigger block ([getOpenClawManager()],
    [getSentinel()], [addWatchAddress]); [now] is [Date.now()]. *)
Definition checkAddress (cfg : GuardianConfig) (now : Z)
    (analysis : Exc Engine.RiskIntelligenceResult) (escalation : Exc unit)
    (st : GuardianState) : Exc (GuardianState * GuardianCheckResponse) :=
  let st1 := mkGuardianState (S (checksTotal st)) (errorsTotal st) (blockedCount st)
               (allowedCount st) (Some now) in
  try_catch
    (riskResult <- analysis ;;
     let riskScore := Engine.risk_score riskResult in
     let decision := decideOnRisk now (inject_Z riskScore) (g_threshold cfg) in
     let response := formatResponse decision in
     let st2 :=
       if r_allowed response
       then mkGuardianState (checksTotal st1) (errorsTotal st1) (blockedCount st1)
              (S (allowedCount st1)) (lastCheck st1)
       else mkGuardianState (checksTotal st1) (errorsTotal st1) (S (blockedCount st1))
              (allowedCount st1) (lastCheck st1) in
     _ <- (if 70 <=? riskScore then try_catch escalation (Ok tt) else Ok tt) ;;
     Ok (st2, response))
    (Ok (mkGuardianState (checksTotal st1) (S (errorsTotal st1)) (blockedCount st1)
           (allowedCount st1) (lastCheck st1), failSafeResponse)).

End Guardian.

(* ------------------------------------------------------------------ *)
(** ** Risk Sentinel ([src/src/openclaw/sentinel.ts]) *)

Module Sentinel.
Import Decision.

Record SentinelConfig := mkSentinelConfig {
  threshold : Z;
  maxAlerts : Z
}.

Inductive AlertReason :=
| InitialObservation
| DecisionReasoning (r : Reasoning).

Record RiskAlert := mkAlert {
  alert_id : string * Z;          (* `${address}-${now}` *)
  target : string;
  a_riskScore : Z;
  a_level : DecisionLevel;
  reason : AlertReason;
  submittedToChain : bool;
  txHash : option string;
  reportHash : option string;
  a_timestamp : Z
}.

(** [Map<string, RiskAlert>]: an association list in insertion order. *)
Definition AlertMap : Type := list (string * RiskAlert).

Fixpoint map_get (k : string) (m : AlertMap) : option RiskAlert :=
  match m with
  | [] => None
  | (k', v) :: m' => if String.eqb k k' then Some v else map_get k m'
  end.

Definition map_has (k : string) (m : AlertMap) : bool :=
  match map_get k m with Some _ => true | None => false end.

(** [Map.set]: in place for an existing key, appended otherwise. *)
Fixpoint map_set (k : string) (v : RiskAlert) (m : AlertMap) : AlertMap :=
  match m with
  | [] => [(k, v)]
  | (k', v') :: m' => if String.eqb k k' then (k, v) :: m' else (k', v') :: map_set k v m'
  end.

Fixpoint map_delete (k : string) (m : AlertMap) : AlertMap :=
  match m with
  | [] => []
  | (k', v') :: m' => if String.eqb k k' then m' else (k', v') :: map_delete k m'
  end.

Definition map_keys (m : AlertMap) : list string := map fst m.

(** [Array.prototype.sort] with [(a, b) => a[1].timestamp - b[1].timestamp]:
    a stable sort, here a stable insertion sort. *)
Fixpoint insert_by_ts (x : string * RiskAlert) (l : AlertMap) : AlertMap :=
  match l with
  | [] => [x]
  | y :: l' => if a_timestamp (snd y) <=? a_timestamp (snd x) then y :: insert_by_ts x l'
               else x :: y :: l'
  end.

Definition sort_by_ts (m : AlertMap) : AlertMap :=
  fold_left (fun acc x => insert_by_ts x acc) m [].

Record SubmitResult := mkSubmit {
  success : bool;
  sr_txHash : option string;
  sr_reportHash : option string
}.

Record SentinelState := mkSentinel {
  alerts : AlertMap;
  submittedAlerts : list (string * Z);   (* dedupe keys `${address}-${riskScore}` *)
  runsTotal : nat;
  errorsTotal : nat;
  successfulRuns : nat;
  submissionsToChain : nat;
  lastRun : option Z;
  (** calls made to the registry, in order, with their results *)
  ledgerCalls : list (string * Z * SubmitResult)
}.

Definition initial : SentinelState := mkSentinel [] [] 0 0 0 0 None [].

Definition set_alerts (st : SentinelState) (m : AlertMap) : SentinelState :=
  mkSentinel m (submittedAlerts st) (runsTotal st) (errorsTotal st) (successfulRuns st)
    (submissionsToChain st) (lastRun st) (ledgerCalls st).

Definition placeholder (address : string) (now : Z) : RiskAlert :=
  mkAlert (address, now) address 0 ALLOW InitialObservation false None None now.

(** [addWatchAddress(address)] *)
Definition addWatchAddress (now : Z) (address : string) (st : SentinelState) : SentinelState :=
  if negb (map_has address (alerts st))
  then set_alerts st (map_set address (placeholder address now) (alerts st))
  else st.

(** [removeWatchAddress(address)] *)
Definition removeWatchAddress (address : string) (st : SentinelState) : SentinelState * bool :=
  let existed := map_has address (alerts st) in
  (if existed then set_alerts st (map_delete address (alerts st)) else st, existed).

(** [updateAlert(address, score, level, reason)] on the alert map. *)
Definition updateAlert (cfg : SentinelConfig) (now : Z) (address : string) (score : Z)
    (lvl : DecisionLevel) (rsn : Reasoning) (m : AlertMap) : AlertMap :=
  let alert :=
    match map_get address m with
    | None => mkAlert (address, now) address score lvl (DecisionReasoning rsn) false None None now
    | Some a => mkAlert (alert_id a) (target a) score lvl (DecisionReasoning rsn)
                  (submittedToChain a) (txHash a) (reportHash a) now
    end in
  let m1 := map_set address alert m in
  if maxAlerts cfg <? Z.of_nat (List.length m1) then
    match sort_by_ts m1 with
    | oldest :: _ => map_delete (fst oldest) m1
    | [] => m1
    end
  else m1.

(** What one monitoring cycle observes from the outside world.
    [analysis addr] is the settled promise of [analyzeRiskIntelligence]
    (its [risk_score], or [Throw] for a rejected one); [submitReport addr
    score] is the registry call; [now] is the cycle's [Date.now()] and
    [alertClock addr] the [Date.now()] read by [updateAlert] for [addr]. *)
Record CycleEnv := mkEnv {
  analysis : string -> Exc Z;
  submitReport : string -> Z -> Exc SubmitResult;
  now : Z;
  alertClock : string -> Z
}.

Definition key_eqb (k1 k2 : string * Z) : bool :=
  String.eqb (fst k1) (fst k2) && Z.eqb (snd k1) (snd k2).

Definition key_mem (k : string * Z) (s : list (string * Z)) : bool :=
  existsb (key_eqb k) s.

(** [submitToRegistry(address, riskResult)]: its [catch] yields
    [{ success: false }]. *)
Definition submitToRegistry (env : CycleEnv) (address : string) (score : Z) : SubmitResult :=
  match submitReport env address score with
  | Ok r => r
  | Throw => mkSubmit false None None
  end.

Definition is_some {A} (o : option A) : bool := match o with Some _ => true | None => false end.

(** [alert.submittedToChain = true; alert.txHash = ..; alert.reportHash = ..]
    on the alert object held by the map, when there is one. *)
Definition markSubmitted (address : string) (r : SubmitResult) (m : AlertMap) : AlertMap :=
  match map_get address m with
  | Some a => map_set address
                (mkAlert (alert_id a) (target a) (a_riskScore a) (a_level a) (reason a)
                   true (sr_txHash r) (sr_reportHash r) (a_timestamp a)) m
  | None => m
  end.

(** One iteration of the [for] loop of [runMonitoringCycle]. *)
Definition processAddress (cfg : SentinelConfig) (env : CycleEnv) (st : SentinelState)
    (address : string) : SentinelState :=
  match analysis env address with
  | Throw => st
  | Ok riskScore =>
      let decision_obj := decideOnRisk (now env) (inject_Z riskScore) (inject_Z (threshold cfg)) in
      let st1 :=
        if shouldSubmitToRegistry decision_obj (inject_Z (threshold cfg)) then
          let dedupeKey := (address, riskScore) in
          if negb (key_mem dedupeKey (submittedAlerts st)) then
            let submitResult := submitToRegistry env address riskScore in
            let calls := ledgerCalls st ++ [(address, riskScore, submitResult)] in
            if success submitResult && is_some (sr_txHash submitResult) then
              mkSentinel (markSubmitted address submitResult (alerts st))
                (submittedAlerts st ++ [dedupeKey]) (runsTotal st) (errorsTotal st)
                (successfulRuns st) (S (submissionsToChain st)) (lastRun st) calls
            else
              mkSentinel (alerts st) (submittedAlerts st) (runsTotal st) (errorsTotal st)
                (successfulRuns st) (submissionsToChain st) (lastRun st) calls
          else st
        else st in
      set_alerts st1 (updateAlert cfg (alertClock env address) address riskScore
                        (level decision_obj) (reasoning decision_obj) (alerts st1))
  end.

(** [runMonitoringCycle()].  No step of the modelled body throws, so its
    [catch] (which counts [errorsTotal]) is not reached. *)
Definition runMonitoringCycle (cfg : SentinelConfig) (env : CycleEnv) (st : SentinelState)
    : SentinelState :=
  let st0 := mkSentinel (alerts st) (submittedAlerts st) (S (runsTotal st)) (errorsTotal st)
               (successfulRuns st) (submissionsToChain st) (Some (now env)) (ledgerCalls st) in
  if Nat.eqb (List.length (alerts st0)) 0 then st0
  else
    let addressesToCheck := map_keys (alerts st0) in
    let st1 := fold_left (processAddress cfg env) addressesToCheck st0 in
    mkSentinel (alerts st1) (submittedAlerts st1) (runsTotal st1) (errorsTotal st1)
      (S (successfulRuns st1)) (submissionsToChain st1) (lastRun st1) (ledgerCalls st1).

(** The operations that change the Sentinel's state: a monitoring cycle,
    and the manual (or Guardian-triggered) watchlist edits. *)
Inductive Op :=
| Cycle (env : CycleEnv)
| AddWatch (now : Z) (address : string)
| RemoveWatch (address : string).

Definition step (cfg : SentinelConfig) (st : SentinelState) (op : Op) : SentinelState :=
  match op with
  | Cycle env => runMonitoringCycle cfg env st
  | AddWatch t a => addWatchAddress t a st
  | RemoveWatch a => fst (removeWatchAddress a st)
  end.

Definition run (cfg : SentinelConfig) (ops : list Op) (st : SentinelState) : SentinelState :=
  fold_left (step cfg) ops st.

(** Registry calls for the pair [k], and those among them that succeeded
    with a transaction hash. *)
Definition attempts (k : string * Z) (calls : list (string * Z * SubmitResult)) : nat :=
  List.length (filter (fun c => key_eqb k (fst c)) calls).

Definition confirmed (c : string * Z * SubmitResult) : bool :=
  success (snd c) && is_some (sr_txHash (snd c)).

Definition successes (k : string * Z) (calls : list (string * Z * SubmitResult)) : nat :=
  List.length (filter (fun c => key_eqb k (fst c) && confirmed c) calls).

End Sentinel.

(* ------------------------------------------------------------------ *)
(** ** String operations of the JavaScript runtime used by the code

    Strings are byte strings here; [toLowerCase] and [trim] are given on
    their ASCII range (the addresses and keys the code handles are ASCII). *)

Module JsString.

(** [String.prototype.toLowerCase] on one character. *)
Definition lower_ascii (c : ascii) : ascii :=
  let n := nat_of_ascii c in
  if (65 <=? n)%nat && (n <=? 90)%nat then ascii_of_nat (n + 32) else c.

Fixpoint toLowerCase (s : string) : string :=
  match s with
  | EmptyString => EmptyString
  | String c s' => String (lower_ascii c) (toLowerCase s')
  end.

(** The ASCII white space [String.prototype.trim] removes: tab, line
    feed, vertical tab, form feed, carriage return and space. *)
Definition is_ws (c : ascii) : bool :=
  let n := nat_of_ascii c in
  ((9 <=? n)%nat && (n <=? 13)%nat) || (n =? 32)%nat.

Fixpoint trimStart (s : string) : string :=
  match s with
  | EmptyString => EmptyString
  | String c s' => if is_ws c then trimStart s' else s
  end.

Fixpoint trimEnd (s : string) : string :=
  match s with
  | EmptyString => EmptyString
  | String c s' =>
      let r := trimEnd s' in
      if is_ws c && String.eqb r "" then EmptyString else String c r
  end.

Definition trim (s : string) : string := trimEnd (trimStart s).

End JsString.

(* ------------------------------------------------------------------ *)
(** ** Address validation ([src/unnamed/part_005], lines 1-15) *)

Module Validation.
Import JsString.

(** The character class [[a-fA-F0-9]]. *)
Definition is_hex (c : ascii) : bool :=
  let n := nat_of_ascii c in
  ((48 <=? n)%nat && (n <=? 57)%nat) || ((97 <=? n)%nat && (n <=? 102)%nat) ||
  ((65 <=? n)%nat && (n <=? 70)%nat).

(** [/^0x[a-fA-F0-9]{40}$/.test(s)] *)
Definition addressRegex_test (s : string) : bool :=
  match s with
  | String c0 (String c1 rest) =>
      Ascii.eqb c0 "0"%char && Ascii.eqb c1 "x"%char &&
      (String.length rest =? 40)%nat && forallb is_hex (list_ascii_of_string rest)
  | _ => false
  end.

(** [isValidAddress(address)]: [!address] rejects the empty string. *)
Definition isValidAddress (address : string) : bool :=
  negb (String.eqb address "") && addressRegex_test (trim address).

Definition normalizeAddress (address : string) : string := toLowerCase (trim address).

End Validation.

(* ------------------------------------------------------------------ *)
(** ** Scam database check ([src/unnamed/part_003], lines 10-175) *)

Module ScamDb.
Import Risk JsString.

Record ScamEntry := mkEntry {
  e_name : string;
  e_type : string;
  e_source : string
}.

(** Reading [KNOWN_SCAM_ADDRESSES[key]] on the object literal: one of its
    own entries, a property inherited from [Object.prototype] (a truthy
    value that is no entry), or [undefined]. *)
Inductive Lookup := OwnEntry (e : ScamEntry) | Inherited | Undefined.

Definition KNOWN_SCAM_ADDRESSES : list (string * ScamEntry) :=
  [("0x0000000000000000000000000000000000000001", mkEntry "Test Scam" "rugpull" "Internal")].

Definition KNOWN_SCAM_DEPLOYERS : list string := [].
Definition KNOWN_HONEYPOTS : list string := [].
Definition COMMUNITY_BLACKLIST : list string := [].

(** The properties of [Object.prototype] whose names are in lower case. *)
Definition prototype_keys : list string := ["constructor"; "__proto__"].

Fixpoint assoc_get (k : string) (l : list (string * ScamEntry)) : option ScamEntry :=
  match l with
  | [] => None
  | (k', e) :: l' => if String.eqb k k' then Some e else assoc_get k l'
  end.

Definition scam_lookup (k : string) : Lookup :=
  match assoc_get k KNOWN_SCAM_ADDRESSES with
  | Some e => OwnEntry e
  | None => if existsb (String.eqb k) prototype_keys then Inherited else Undefined
  end.

Definition truthy (l : Lookup) : bool := match l with Undefined => false | _ => true end.

(** [Set.prototype.has] *)
Definition set_has (k : string) (s : list string) : bool := existsb (String.eqb k) s.

Definition sflag (id name : string) (sev : Severity) (w : Z) : EvidenceFlag :=
  mkFlag id name sev "scam" w.

(** The [for ... of] loop over [deployedContracts] with its [break]: the
    first contract whose lower-cased address is in the scam list. *)
Fixpoint firstLinkedRug (cs : list string) : option string :=
  match cs with
  | [] => None
  | c :: cs' => if truthy (scam_lookup (toLowerCase c)) then Some c else firstLinkedRug cs'
  end.

Definition suspiciousPrefixes : list string := ["00000000"; "deadbeef"; "ffffffff"].

(** The [try] block of [checkScamDatabase(address, deployerAddress,
    deployedContracts)]; [Analyzers.checkScamDatabase] wraps it in the
    [catch]. *)
Definition scamCheckBody (address : string) (deployerAddress : option string)
    (deployedContracts : option (list string)) : ScamDatabaseAnalysis :=
  let normalizedAddress := toLowerCase address in
  let '(flags, score, knownScam) :=
    if truthy (scam_lookup normalizedAddress)
    then ([sflag "known_scam" "Known Scam Address" critical 30], 30, true)
    else ([], 0, false) in
  let '(flags, score, knownScam) :=
    match deployerAddress with
    | Some d =>
        if negb (String.eqb d "") && set_has (toLowerCase d) KNOWN_SCAM_DEPLOYERS
        then (flags ++ [sflag "scam_deployer" "Deployed by Known Scam Wallet" critical 25],
              score + 25, true)
        else (flags, score, knownScam)
    | None => (flags, score, knownScam)
    end in
  let '(flags, score, isBlacklisted) :=
    if set_has normalizedAddress KNOWN_HONEYPOTS
    then (flags ++ [sflag "known_honeypot" "Confirmed Honeypot" critical 30], score + 30, true)
    else (flags, score, false) in
  let '(flags, score, isBlacklisted) :=
    if set_has normalizedAddress COMMUNITY_BLACKLIST
    then (flags ++ [sflag "community_blacklist" "Community Blacklisted" high 20], score + 20, true)
    else (flags, score, isBlacklisted) in
  let '(flags, score, rugpullHistory) :=
    match deployedContracts with
    | Some cs =>
        match firstLinkedRug cs with
        | Some c =>
            (flags ++ [sflag ("linked_rug_" ++ substring 0 8 c)%string
                         "Linked to Known Rugpull" critical 25], score + 25, true)
        | None => (flags, score, false)
        end
    | None => (flags, score, false)
    end in
  let addressPrefix := substring 2 8 normalizedAddress in
  let '(flags, score) :=
    if set_has addressPrefix suspiciousPrefixes
    then (flags ++ [sflag "suspicious_prefix" "Suspicious Address Pattern" low 5], score + 5)
    else (flags, score) in
  let flags :=
    match flags with
    | [] => [sflag "clean_scam_check" "No Scam Records Found" info 0]
    | _ => flags
    end in
  mkScam flags (Z.min score 100) isBlacklisted knownScam rugpullHistory.

End ScamDb.

(* ------------------------------------------------------------------ *)
(** ** Explanation text ([src/src/index.ts], lines 295-371) *)

Module Explanation.
Import Risk Engine.

Definition typeLabel (t : AddressType) : string :=
  match t with
  | token => "token contract"
  | contract => "smart contract"
  | wallet => "wallet"
  end.

(** The five summary templates, with the label and score they embed. *)
Inductive Summary :=
| VeryLowSummary (label : string) (score : Z)
| LowSummary (label : string) (score : Z)
| ModerateSummary (label : string) (score : Z)
| HighSummary (label : string) (score : Z)
| VeryHighSummary (label : string) (score : Z).

(** [`[${SEVERITY}] ${name}: ${description}`] for a flag, or the message
    used when there is none. *)
Inductive Finding := FlagFinding (f : EvidenceFlag) | NoSignificantFindings.

(** [`Contract Risk: ${score}/100`] and the four other templates. *)
Inductive RiskFactor :=
| ContractFactor (score : Z)
| OnChainFactor (score : Z)
| WalletFactor (score : Z)
| TransparencyFactor (score : Z)
| ScamFactor (score : Z).

Record ExplanationText := mkExplanation {
  summary : Summary;
  keyFindings : list Finding;
  recommendations : list string;
  riskFactors : list RiskFactor
}.

(** [.sort((a, b) => b.riskWeight - a.riskWeight)]: a stable sort,
    heaviest first, here a stable insertion sort. *)
Fixpoint insert_by_weight (x : EvidenceFlag) (l : list EvidenceFlag) : list EvidenceFlag :=
  match l with
  | [] => [x]
  | y :: l' => if riskWeight x <=? riskWeight y then y :: insert_by_weight x l' else x :: l
  end.

Definition sort_by_weight (l : list EvidenceFlag) : list EvidenceFlag :=
  fold_left (fun acc x => insert_by_weight x acc) l [].

Definition generateExplanation (score : Z) (addrType : AddressType) (c : ContractAnalysis)
    (o : OnChainBehaviorAnalysis) (w : WalletHistoryAnalysis) (t : TransparencyAnalysis)
    (s : ScamDatabaseAnalysis) : ExplanationText :=
  let lbl := typeLabel addrType in
  let summary :=
    if score <? 20 then VeryLowSummary lbl score
    else if score <? 40 then LowSummary lbl score
    else if score <? 60 then ModerateSummary lbl score
    else if score <? 80 then HighSummary lbl score
    else VeryHighSummary lbl score in
  let sortedFlags :=
    firstn 5 (sort_by_weight (filter (fun f => negb (is_sev info f)) (allFlags c o w t s))) in
  let keyFindings :=
    match map FlagFinding sortedFlags with
    | [] => [NoSignificantFindings]
    | l => l
    end in
  let recommendations :=
    if 80 <=? score then
      ["AVOID interacting with this address. High probability of scam or rugpull.";
       "If you have funds at risk, consider withdrawing immediately.";
       "Report this address to BNB Chain community scam databases."]
    else if 60 <=? score then
      ["Exercise extreme caution before any interaction.";
       "Verify the project through multiple independent sources.";
       "Start with a very small test transaction if you must interact.";
       "Check if the contract source code is verified on BscScan."]
    else if 40 <=? score then
      ["Proceed with caution and do additional research.";
       "Verify the project team and their track record.";
       "Check community sentiment on BSC forums and social media."]
    else
      ["Standard precautions apply. Always verify before large transactions.";
       "Keep monitoring the address for changes in behavior."] in
  let riskFactors :=
    (if 0 <? c_score c then [ContractFactor (c_score c)] else []) ++
    (if 0 <? o_score o then [OnChainFactor (o_score o)] else []) ++
    (if 0 <? w_score w then [WalletFactor (w_score w)] else []) ++
    (if 0 <? t_score t then [TransparencyFactor (t_score t)] else []) ++
    (if 0 <? s_score s then [ScamFactor (s_score s)] else []) in
  mkExplanation summary keyFindings recommendations riskFactors.

End Explanation.

(* ------------------------------------------------------------------ *)
(** ** Registry service ([src/src/services/registryService.ts], lines 109-168) *)

Module Registry.

(** [scoreToRiskLevel]: [OnChainRiskLevel] LOW = 0, MEDIUM = 1, HIGH = 2. *)
Definition scoreToRiskLevel (score : Z) : Z :=
  if score <=? 33 then 0
  else if score <=? 66 then 1
  else 2.

Definition RISK_LEVEL_LABELS : list string := ["LOW"; "MEDIUM"; "HIGH"].

(** [v || d] for a string [v] that may be [undefined]. *)
Definition js_or (v : option string) (d : string) : string :=
  match v with
  | Some s => if String.eqb s "" then d else s
  | None => d
  end.

(** [RISK_LEVEL_LABELS[level] || 'UNKNOWN']: a negative index reads
    [undefined]. *)
Definition riskLevelToString (level : Z) : string :=
  js_or (if level <? 0 then None else nth_error RISK_LEVEL_LABELS (Z.to_nat level)) "UNKNOWN".

Record Receipt := mkReceipt {
  rc_hash : string;
  rc_blockNumber : Z;
  rc_gasUsed : Z
}.

(** How [contract.submitRiskReport(..)] and [tx.wait()] settle: a mined
    receipt, or an error with its optional [reason] and [message]. *)
Inductive TxOutcome :=
| Mined (r : Receipt)
| Failed (reason message : option string).

(** The arguments of [contract.submitRiskReport]. *)
Record RegistryCall := mkCall {
  call_target : string;
  call_score : Z;
  call_level : Z;
  call_hash : string
}.

(** [SubmitResult]; [gasUsed] is kept as the number it prints. *)
Record RegistrySubmitResult := mkRegResult {
  rs_success : bool;
  rs_txHash : option string;
  rs_blockNumber : option Z;
  rs_gasUsed : option Z;
  rs_reportHash : option string;
  rs_error : option string
}.

(** [submitReport(targetAddress, riskScore, reportData)].
    [hasWriteContract] is whether [getWriteContract()] returns a contract
    (an analyzer key is configured), [reportHash] is [hashReport(reportData)]
    and [send] how the transaction for a call settles.  The result pairs
    the registry call made, if any, with the returned object. *)
Definition submitReport (hasWriteContract : bool) (reportHash : string)
    (send : RegistryCall -> TxOutcome) (targetAddress : string) (riskScore : Z)
    : option RegistryCall * RegistrySubmitResult :=
  if negb hasWriteContract then
    (None, mkRegResult false None None None None (Some "Analyzer private key not configured"))
  else
    let riskLevel := scoreToRiskLevel riskScore in
    let call := mkCall targetAddress riskScore riskLevel reportHash in
    match send call with
    | Mined r =>
        (Some call, mkRegResult true (Some (rc_hash r)) (Some (rc_blockNumber r))
                      (Some (rc_gasUsed r)) (Some reportHash) None)
    | Failed reason message =>
        (Some call, mkRegResult false None None None (Some reportHash)
                      (Some (js_or reason (js_or message "Unknown error"))))
    end.

(** A report as [getReport] and [getLatestReportForTarget] return it. *)
Record RawReport := mkRawReport {
  raw_targetAddress : string;
  raw_riskScore : Z;
  raw_riskLevel : Z;
  raw_reportHash : string;
  raw_timestamp : Z;
  raw_analyzer : string
}.

(** [OnChainReport]; the ISO date string is kept as the millisecond time
    it is built from. *)
Record OnChainReport := mkOnChainReport {
  oc_targetAddress : string;
  oc_riskScore : Z;
  oc_riskLevel : string;
  oc_reportHash : string;
  oc_timestamp : Z;
  oc_analyzer : string
}.

Definition toOnChainReport (r : RawReport) : OnChainReport :=
  mkOnChainReport (raw_targetAddress r) (raw_riskScore r) (riskLevelToString (raw_riskLevel r))
    (raw_reportHash r) (raw_timestamp r * 1000) (raw_analyzer r).

(** [Promise.all(xs.map(f))]: rejects as soon as one promise rejects. *)
Fixpoint promise_all {A B} (f : A -> Exc B) (xs : list A) : Exc (list B) :=
  match xs with
  | [] => Ok []
  | x :: xs' => y <- f x ;; ys <- promise_all f xs' ;; Ok (y :: ys)
  end.

(** [getReportsForTarget(targetAddress)] ([registryService.ts], lines
    261-286): [reportsByTarget] is [contract.getReportsByTarget(..)] and
    [getReport i] is [contract.getReport(i)]. *)
Definition getReportsForTarget (reportsByTarget : Exc (list Z)) (getReport : Z -> Exc RawReport)
    : list OnChainReport :=
  catch_default
    (indices <- reportsByTarget ;;
     match indices with
     | [] => Ok []
     | _ => reports <- promise_all getReport indices ;; Ok (map toOnChainReport reports)
     end)
    [].

End Registry.

(* ------------------------------------------------------------------ *)
(** ** Agent status reports ([getStatus] of [guardian.ts] and [sentinel.ts]) *)

Module Status.

(** [parseFloat(x.toFixed(2))]: the nearest multiple of 1/100, ties
    upwards, taken here on the exact rate. *)
Definition toFixed2 (x : Q) : Q := (inject_Z (Qfloor (x * 100 + (1 # 2))) / 100)%Q.

(** The numeric fields of [AgentStatus] ([name], [enabled] and [running]
    are not modelled). *)
Record AgentStatus := mkStatus {
  st_lastRun : option Z;
  st_runsTotal : nat;
  st_errorsTotal : nat;
  st_successRate : Q;
  st_alertsGenerated : nat;
  st_submissionsToChain : nat
}.

End Status.

Module GuardianStatus.
Import Guardian Status.

(** [RiskGuardian.getStatus()] ([guardian.ts], lines 200-216). *)
Definition getStatus (st : GuardianState) : AgentStatus :=
  let successRate :=
    if (0 <? checksTotal st)%nat
    then ((inject_Z (Z.of_nat (checksTotal st)) - inject_Z (Z.of_nat (errorsTotal st)))
            / inject_Z (Z.of_nat (checksTotal st)) * 100)%Q
    else 0%Q in
  mkStatus (lastCheck st) (checksTotal st) (errorsTotal st) (toFixed2 successRate)
    (blockedCount st) 0.

(** The counters of a new [RiskGuardian] (lines 58-62). *)
Definition initialGuardian : GuardianState := mkGuardianState 0 0 0 0 None.

(** Successive [checkAddress] calls on one guardian; an input gives
    [Date.now()], the outcome of the analysis and that of the escalation. *)
Fixpoint runChecks (cfg : GuardianConfig)
    (inputs : list (Z * Exc Engine.RiskIntelligenceResult * Exc unit))
    (st : GuardianState) : GuardianState :=
  match inputs with
  | [] => st
  | (now, analysis, escalation) :: rest =>
      match checkAddress cfg now analysis escalation st with
      | Ok (st', _) => runChecks cfg rest st'
      | Throw => st
      end
  end.

End GuardianStatus.

Module SentinelStatus.
Import Sentinel Status.

(** [RiskSentinel.getStatus()] ([sentinel.ts], lines 351-365). *)
Definition getStatus (st : SentinelState) : AgentStatus :=
  let successRate :=
    if (0 <? runsTotal st)%nat
    then (inject_Z (Z.of_nat (successfulRuns st)) / inject_Z (Z.of_nat (runsTotal st)) * 100)%Q
    else 0%Q in
  mkStatus (lastRun st) (runsTotal st) (errorsTotal st) (toFixed2 successRate)
    (List.length (alerts st)) (submissionsToChain st).

End SentinelStatus.


(* ------------------------------------------------------------------ *)
(** ** Wallet history scoring ([src/unnamed/part_004], lines 26-223)

    The flag and score steps of [analyzeWalletHistory] after the provider
    data is read.  [deployedContracts] are the [contractAddress] fields of
    the wallet's contract-creation transactions; [contractCode c] is the
    provider's [getCode(c)], whose [.catch(() => '0x')] turns a failure into
    empty code.  The three fund-flow tests compare [parseFloat] sums and
    timestamps; their outcomes are the inputs [funnelPattern] (many
    senders, at most two recipients, outflow above 80% of inflow),
    [rapidMovement] (20 or more transactions, over 5 BNB sent within a day)
    and [newInboundOnly] (under 7 days, under 5 transactions, inflow only). *)

Module WalletHistory.
Import Risk.

Definition wflag (id name : string) (sev : Severity) (w : Z) : EvidenceFlag :=
  mkFlag id name sev "wallet" w.

(** [contractCode === '0x' || contractCode.length <= 2] *)
Definition isDestroyedCode (code : string) : bool :=
  String.eqb code "0x" || (Z.of_nat (String.length code) <=? 2).

(** The deployed-contract count block: its flag and score increment. *)
Definition deployerFlags (n : Z) : list EvidenceFlag * Z :=
  if 0 <? n then
    if 10 <? n then ([wflag "mass_deployer" "Mass Contract Deployer" high 20], 20)
    else if 3 <? n then ([wflag "multi_deployer" "Multiple Contract Deployments" medium 10], 10)
    else ([wflag "contract_deployer" "Contract Deployer" info 2], 0)
  else ([], 0).

(** One iteration of [for (const contractAddr of deployedContracts.slice(0, 5))];
    its inner [try] guards only calls that cannot reject. *)
Definition rugStep (contractCode : string -> Exc string)
    (acc : Z * list EvidenceFlag * list string) (contractAddr : string)
    : Z * list EvidenceFlag * list string :=
  let '(score, flags, linkedRugpulls) := acc in
  let code := catch_default (contractCode contractAddr) "0x" in
  if isDestroyedCode code then
    (score + 18,
     flags ++ [wflag (String.append "destroyed_" (substring 0 8 contractAddr))
                 "Linked Destroyed Contract" critical 20],
     linkedRugpulls ++ [contractAddr])
  else (score, flags, linkedRugpulls).

Definition scoreWallet (deployedContracts : list string) (contractCode : string -> Exc string)
    (funnelPattern rapidMovement newInboundOnly : bool) : WalletHistoryAnalysis :=
  let '(flags0, score0) := deployerFlags (Z.of_nat (List.length deployedContracts)) in
  let '(score1, flags1, linkedRugpulls) :=
    fold_left (rugStep contractCode) (firstn 5 deployedContracts) (score0, flags0, []) in
  let '(score2, flags2) :=
    if funnelPattern
    then (score1 + 20, flags1 ++ [wflag "funnel_pattern" "Fund Funneling Pattern" critical 20])
    else (score1, flags1) in
  let '(score3, flags3) :=
    if rapidMovement
    then (score2 + 12, flags2 ++ [wflag "rapid_movement" "Rapid Fund Movement" high 15])
    else (score2, flags2) in
  let '(score4, flags4) :=
    if newInboundOnly
    then (score3 + 5, flags3 ++ [wflag "new_inbound_only" "New Wallet (Inbound Only)" low 5])
    else (score3, flags3) in
  mkWallet flags4 (Z.min score4 100) deployedContracts linkedRugpulls.

End WalletHistory.

(* ------------------------------------------------------------------ *)
(** ** Response cache of the risk route ([src/src/routes/risk.ts], lines 9-30) *)

Module RiskCache.

Section Cache.
Variable Data : Type.

Record CacheEntry := mkEntry {
  data : Data;
  expiry : Z
}.

(** [Map<string, { data, expiry }>], in insertion order. *)
Definition Cache : Type := list (string * CacheEntry).

Definition CACHE_TTL_MS : Z := 120000.

Fixpoint cache_get (k : string) (c : Cache) : option CacheEntry :=
  match c with
  | [] => None
  | (k', v) :: c' => if String.eqb k k' then Some v else cache_get k c'
  end.

Fixpoint cache_set (k : string) (v : CacheEntry) (c : Cache) : Cache :=
  match c with
  | [] => [(k, v)]
  | (k', v') :: c' => if String.eqb k k' then (k, v) :: c' else (k', v') :: cache_set k v c'
  end.

Fixpoint cache_delete (k : string) (c : Cache) : Cache :=
  match c with
  | [] => []
  | (k', v') :: c' => if String.eqb k k' then c' else (k', v') :: cache_delete k c'
  end.

(** [getCached(key)]; [now] is [Date.now()].  The result pairs the
    returned data (or [null]) with the cache afterwards. *)
Definition getCached (now : Z) (key : string) (c : Cache) : option Data * Cache :=
  match cache_get key c with
  | Some e => if now <? expiry e then (Some (data e), c) else (None, cache_delete key c)
  | None => (None, cache_delete key c)
  end.

(** [setCache(key, data)]; [now] is the first [Date.now()] and
    [sweepNow] the second.  Deleting during [for (const [k, v] of cache)]
    visits every entry once, so the sweep keeps exactly the entries with
    [sweepNow < expiry]. *)
Definition setCache (now sweepNow : Z) (key : string) (d : Data) (c : Cache) : Cache :=
  let c1 := cache_set key (mkEntry d (now + CACHE_TTL_MS)) c in
  if 1000 <? Z.of_nat (List.length c1)
  then filter (fun kv => negb (sweepNow >=? expiry (snd kv))) c1
  else c1.

End Cache.

Arguments mkEntry {Data}.
Arguments data {Data}.
Arguments expiry {Data}.
Arguments cache_get {Data}.
Arguments cache_set {Data}.
Arguments cache_delete {Data}.
Arguments getCached {Data}.
Arguments setCache {Data}.

End RiskCache.
(* ================================================================== *)
(** * Properties of the decision engine *)

Module DecisionFacts.
Import Decision.
Local Open Scope Q_scope.

Example decide_examples :
  level (decideOnRisk 0 10 70) = ALLOW /\ level (decideOnRisk 0 45 70) = WARN /\
  level (decideOnRisk 0 60 70) = BLOCK /\ level (decideOnRisk 0 250 70) = BLOCK /\
  confidence (decideOnRisk 0 10 70) = high /\ confidence (decideOnRisk 0 50 70) = medium /\
  confidence (decideOnRisk 0 60 70) = low.
Proof. repeat split; reflexivity. Qed.

Lemma Qltb_spec (x y : Q) : Qltb x y = true <-> x < y.
Proof.
  unfold Qltb. rewrite negb_true_iff. split.
  - intros H. apply Qnot_le_lt. intros H'. apply Qle_bool_iff in H'. congruence.
  - intros H. destruct (Qle_bool y x) eqn:E; [|reflexivity].
    apply Qle_bool_iff in E. exfalso. apply (Qlt_not_le x y); assumption.
Qed.

Lemma Qltb_false (x y : Q) : Qltb x y = false <-> y <= x.
Proof.
  split.
  - intros H. apply Qnot_lt_le. intros H'. apply Qltb_spec in H'. congruence.
  - intros H. destruct (Qltb x y) eqn:E; [|reflexivity].
    apply Qltb_spec in E. exfalso. apply (Qlt_not_le x y); assumption.
Qed.

Lemma clamp100_id (s : Q) : 0 <= s <= 100 -> clamp100 s == s.
Proof.
  intros [H0 H1]. unfold clamp100.
  rewrite (Q.min_r 100 s H1). apply Q.max_r. exact H0.
Qed.

Lemma Qltb_compat (x x' y : Q) : x == x' -> Qltb x y = Qltb x' y.
Proof.
  intros E. destruct (Qltb x' y) eqn:F.
  - apply Qltb_spec. apply Qltb_spec in F. rewrite E. exact F.
  - apply Qltb_false. apply Qltb_false in F. rewrite E. exact F.
Qed.

Lemma getDecisionLevel_threshold (s t t' : Q) : getDecisionLevel s t = getDecisionLevel s t'.
Proof. reflexivity. Qed.

(** C2. For scores s and thresholds t in [0,100], the level of
    [decideOnRisk s t] is ALLOW when s < 30, WARN when 30 <= s < 60 and
    BLOCK when s >= 60; it is the same for every threshold (and every clock
    reading); and [allowed] is true exactly for ALLOW and WARN. *)
Theorem decide_level_by_score (now : Z) (s t : Q)
    (Hs : 0 <= s <= 100) (Ht : 0 <= t <= 100) :
  (s < 30 -> level (decideOnRisk now s t) = ALLOW) /\
  (30 <= s -> s < 60 -> level (decideOnRisk now s t) = WARN) /\
  (60 <= s -> level (decideOnRisk now s t) = BLOCK) /\
  (forall (now' : Z) (t' : Q), level (decideOnRisk now' s t') = level (decideOnRisk now s t)) /\
  allowed (decideOnRisk now s t) =
    match level (decideOnRisk now s t) with ALLOW | WARN => true | BLOCK => false end.
Proof.
  pose proof (clamp100_id s Hs) as Ec.
  assert (L30 : Qltb (clamp100 s) 30 = Qltb s 30) by (apply Qltb_compat; exact Ec).
  assert (L60 : Qltb (clamp100 s) 60 = Qltb s 60) by (apply Qltb_compat; exact Ec).
  unfold decideOnRisk, getDecisionLevel; simpl.
  rewrite L30, L60.
  repeat split.
  - intros H. apply Qltb_spec in H. rewrite H. reflexivity.
  - intros H1 H2. apply Qltb_false in H1. apply Qltb_spec in H2. rewrite H1, H2. reflexivity.
  - intros H. assert (H1 : Qltb s 30 = false) by (apply Qltb_false;
      apply Qle_trans with 60; [discriminate | exact H]).
    apply Qltb_false in H. rewrite H1, H. reflexivity.
  - destruct (Qltb s 30), (Qltb s 60); reflexivity.
Qed.

Lemma decide_level_by_score_witness :
  (0 <= 45 <= 100 /\ 0 <= 70 <= 100) /\
  ((45 < 30 -> level (decideOnRisk 0 45 70) = ALLOW) /\
   (30 <= 45 -> 45 < 60 -> level (decideOnRisk 0 45 70) = WARN) /\
   (60 <= 45 -> level (decideOnRisk 0 45 70) = BLOCK) /\
   (forall (now' : Z) (t' : Q), level (decideOnRisk now' 45 t') = level (decideOnRisk 0 45 70)) /\
   allowed (decideOnRisk 0 45 70) =
     match level (decideOnRisk 0 45 70) with ALLOW | WARN => true | BLOCK => false end).
Proof.
  split.
  - split; split; apply Qle_bool_iff; reflexivity.
  - apply (decide_level_by_score 0 45 70); split; apply Qle_bool_iff; reflexivity.
Defined.

(** C8. With s and t clamped to [0,100], the confidence of
    [decideOnRisk s t] is high iff |s - t| > 30, medium iff
    15 < |s - t| <= 30, and low iff |s - t| <= 15. *)
Theorem decide_confidence_by_distance (now : Z) (s t : Q) :
  let d := Qabs (clamp100 s - clamp100 t) in
  (confidence (decideOnRisk now s t) = high <-> 30 < d) /\
  (confidence (decideOnRisk now s t) = medium <-> 15 < d /\ d <= 30) /\
  (confidence (decideOnRisk now s t) = low <-> d <= 15).
Proof.
  intros d.
  change (confidence (decideOnRisk now s t)) with (getConfidence (clamp100 s) (clamp100 t)).
  unfold getConfidence. cbv zeta. fold d. clearbody d.
  destruct (Qltb 30 d) eqn:H30; [|destruct (Qltb 15 d) eqn:H15];
    repeat rewrite Qltb_spec in *; repeat rewrite Qltb_false in *;
    repeat split; intros; first [reflexivity | discriminate | lra | exfalso; lra].
Qed.

(** C9 (as stated, refuted). Two calls with the same score and threshold
    made at different clock readings return decisions that differ in
    their [timestamp] field ([timestamp: Date.now()]). *)
Lemma decide_not_deterministic :
  decideOnRisk 0 50 50 <> decideOnRisk 1 50 50.
Proof. intros H. apply (f_equal timestamp) in H. simpl in H. discriminate. Qed.

(** C9 (amended). For identical (score, threshold) inputs, two calls of
    [decideOnRisk] agree on every field except [timestamp], which is the
    clock reading of the call. *)
Theorem decide_deterministic_but_timestamp (now1 now2 : Z) (s t : Q) :
  let d1 := decideOnRisk now1 s t in
  let d2 := decideOnRisk now2 s t in
  level d1 = level d2 /\ allowed d1 = allowed d2 /\
  recommended_action d1 = recommended_action d2 /\ confidence d1 = confidence d2 /\
  riskScore d1 = riskScore d2 /\ reasoning d1 = reasoning d2 /\
  timestamp d1 = now1 /\ timestamp d2 = now2.
Proof. simpl. repeat split; reflexivity. Qed.

End DecisionFacts.

(* ================================================================== *)
(** * Properties of the aggregation engine *)

Module EngineFacts.
Import Risk Engine.

(** The floor rules as the spec words them: rule [k] raises the running
    score [x] to at least [v] when its condition holds. *)
Definition raise_if (cond : bool) (v x : Z) : Z := if cond then Z.max v x else x.

Definition any_critical (fs : list EvidenceFlag) : bool := existsb (is_sev critical) fs.

Definition count_sev (sv : Severity) (fs : list EvidenceFlag) : Z :=
  Z.of_nat (List.length (filter (is_sev sv) fs)).

Definition count_not_info (fs : list EvidenceFlag) : Z :=
  Z.of_nat (List.length (filter (fun f => negb (is_sev info f)) fs)).

Definition spec_floor_chain (c : ContractAnalysis) (o : OnChainBehaviorAnalysis)
    (w : WalletHistoryAnalysis) (t : TransparencyAnalysis) (s : ScamDatabaseAnalysis)
    (x : Z) : Z :=
  let fs := allFlags c o w t s in
  let cr := contractRiskRaw c in
  let br := behaviorRiskRaw o w in
  let rr := reputationRiskRaw t s in
  raise_if (7 <=? count_not_info fs) 65
   (raise_if (s_rugpullHistory s || negb (Nat.eqb (List.length (w_linkedRugpulls w)) 0)) 80
    (raise_if (s_knownScam s || s_isBlacklisted s) 85
     (raise_if (75 <=? Z.max cr (Z.max br rr)) 60
      (raise_if (3 <=? count_sev high fs) 60
       (raise_if (any_critical fs) 70 x))))).

Definition mkf (sv : Severity) : EvidenceFlag := mkFlag "f" "f" sv "test" 10.

(** The spec's first scenario: unverified source (20) and no outgoing
    transaction (5) give contract risk 25; a zero-transaction behaviour
    score of 15; no floor applies. *)
Example engine_scenario_no_floor :
  let c := mkContract true [mkf medium; mkf low] 25 in
  let o := mkOnChain [mkf medium] 15 false in
  let w := mkWallet [] 0 [] [] in
  let t := mkTransparency [mkf medium; mkf medium; mkf low] 32 in
  let s := mkScam [mkf info] 0 false false false in
  breakdown (analyzeRiskIntelligence c o w t s) = mkBreakdown 25 9 16 /\
  risk_score (analyzeRiskIntelligence c o w t s) = 17 /\
  adjustments (scoreCalculation (analyzeRiskIntelligence c o w t s)) = [NoAdjustments].
Proof. vm_compute. repeat split; reflexivity. Qed.

Example engine_scenario_known_scam :
  let c := mkContract false [] 0 in
  let o := mkOnChain [] 0 false in
  let w := mkWallet [] 0 [] [] in
  let t := mkTransparency [] 0 in
  let s := mkScam [mkf critical] 30 false true false in
  risk_score (analyzeRiskIntelligence c o w t s) = 85 /\
  adjustments (scoreCalculation (analyzeRiskIntelligence c o w t s)) =
    [CriticalFloor 3 70 1; ScamDbFloor 70 85].
Proof. vm_compute. split; reflexivity. Qed.

Lemma floorStep_fst (cond : bool) (v : Z) (mk : Z -> Z -> Adjustment) (st : Z * list Adjustment) :
  fst (floorStep cond v mk st) = raise_if cond v (fst st).
Proof.
  destruct st as [x adj]. unfold floorStep, raise_if.
  destruct cond; [|reflexivity].
  destruct (x <? Z.max v x) eqn:E; simpl; [reflexivity|].
  apply Z.ltb_ge in E. lia.
Qed.

Lemma floorStep_raises (cond : bool) (v : Z) (mk : Z -> Z -> Adjustment) (st : Z * list Adjustment) :
  fst st <= fst (floorStep cond v mk st).
Proof. rewrite floorStep_fst. unfold raise_if. destruct cond; lia. Qed.

Lemma raise_if_ge (cond : bool) (v x : Z) : x <= raise_if cond v x.
Proof. unfold raise_if. destruct cond; lia. Qed.

Lemma any_critical_length (fs : list EvidenceFlag) :
  (0 <? Z.of_nat (List.length (filter (is_sev critical) fs))) = any_critical fs.
Proof.
  unfold any_critical. induction fs as [|f fs IH]; [reflexivity|].
  simpl. destruct (is_sev critical f); simpl; [|exact IH].
  apply Z.ltb_lt. lia.
Qed.

Lemma linked_length (l : list string) :
  (0 <? Z.of_nat (List.length l)) = negb (Nat.eqb (List.length l) 0).
Proof. destruct l; reflexivity. Qed.

Lemma final_is_chain (c : ContractAnalysis) (o : OnChainBehaviorAnalysis)
    (w : WalletHistoryAnalysis) (t : TransparencyAnalysis) (s : ScamDatabaseAnalysis) :
  risk_score (analyzeRiskIntelligence c o w t s) =
  Z.min (spec_floor_chain c o w t s
           (weightedScore (contractRiskRaw c) (behaviorRiskRaw o w) (reputationRiskRaw t s))) 100.
Proof.
  unfold analyzeRiskIntelligence, spec_floor_chain. cbv zeta. cbn [risk_score].
  rewrite !floorStep_fst. cbn [fst].
  rewrite any_critical_length, linked_length. reflexivity.
Qed.

Lemma raise_if_true (v x : Z) : v <= raise_if true v x.
Proof. unfold raise_if. lia. Qed.

Lemma raise_if_above (m : Z) (cond : bool) (v x : Z) : m <= x -> m <= raise_if cond v x.
Proof. pose proof (raise_if_ge cond v x). lia. Qed.

(** C1. The engine's final score is the weighted total passed through the
    six floor rules in the fixed order (critical flag: 70; three high
    flags: 60; a sub-score of 75 or more: 60; scam-database match: 85;
    linked rugpull: 80; seven non-info flags: 65), each applied to the
    running score, then capped at 100; every floor step only raises the
    running score; a critical flag anywhere makes the final score at least
    70; the final score is at most 100. *)
Theorem analyze_floor_rules (c : ContractAnalysis) (o : OnChainBehaviorAnalysis)
    (w : WalletHistoryAnalysis) (t : TransparencyAnalysis) (s : ScamDatabaseAnalysis) :
  let r := analyzeRiskIntelligence c o w t s in
  let w0 := weightedScore (contractRiskRaw c) (behaviorRiskRaw o w) (reputationRiskRaw t s) in
  risk_score r = Z.min (spec_floor_chain c o w t s w0) 100 /\
  finalScore (scoreCalculation r) = risk_score r /\
  (forall (cond : bool) (v : Z) (mk : Z -> Z -> Adjustment) (st : Z * list Adjustment),
      fst st <= fst (floorStep cond v mk st)) /\
  (any_critical (allFlags c o w t s) = true -> 70 <= risk_score r) /\
  risk_score r <= 100.
Proof.
  intros r w0. subst r.
  pose proof (final_is_chain c o w t s) as Hf. fold w0 in Hf.
  split; [exact Hf|]. split; [reflexivity|]. split; [exact floorStep_raises|].
  split; [|rewrite Hf; lia].
  intros Hc. rewrite Hf. unfold spec_floor_chain. cbv zeta. rewrite Hc.
  apply Z.min_glb; [|lia].
  do 5 apply raise_if_above. apply raise_if_true.
Qed.

(** C3. The breakdown reports contract_risk = the contract score,
    behavior_risk = min(round(0.6 * behaviour + 0.4 * wallet), 100) and
    reputation_risk = min(round(0.5 * transparency + 0.5 * scam), 100), the
    score calculation repeats them as raw scores, and the pre-floor total is
    round(0.40 * contract_risk + 0.40 * behavior_risk + 0.20 * reputation_risk):
    the final score is that total (capped at 100) raised only by the floor
    rules, and equals it when no floor rule raises it. *)
Theorem analyze_subscores (c : ContractAnalysis) (o : OnChainBehaviorAnalysis)
    (w : WalletHistoryAnalysis) (t : TransparencyAnalysis) (s : ScamDatabaseAnalysis) :
  let r := analyzeRiskIntelligence c o w t s in
  let bd := breakdown r in
  let pre := Math_round (inject_Z (contract_risk bd) * (40 # 100)
                         + inject_Z (behavior_risk bd) * (40 # 100)
                         + inject_Z (reputation_risk bd) * (20 # 100)) in
  contract_risk bd = c_score c /\
  behavior_risk bd =
    Z.min (Math_round (inject_Z (o_score o) * (6 # 10) + inject_Z (w_score w) * (4 # 10))) 100 /\
  reputation_risk bd =
    Z.min (Math_round (inject_Z (t_score t) * (5 # 10) + inject_Z (s_score s) * (5 # 10))) 100 /\
  rawScores (scoreCalculation r) = bd /\
  weightedScore (contract_risk bd) (behavior_risk bd) (reputation_risk bd) = pre /\
  Z.min pre 100 <= risk_score r /\
  (spec_floor_chain c o w t s pre = pre -> risk_score r = Z.min pre 100).
Proof.
  intros r bd pre.
  assert (Hpre : pre = weightedScore (contractRiskRaw c) (behaviorRiskRaw o w) (reputationRiskRaw t s))
    by reflexivity.
  pose proof (final_is_chain c o w t s) as Hf. fold r in Hf. rewrite <- Hpre in Hf.
  split; [reflexivity|].
  split; [reflexivity|].
  split; [reflexivity|].
  split; [reflexivity|].
  split; [reflexivity|].
  split.
  - rewrite Hf. unfold spec_floor_chain. cbv zeta.
    apply Z.min_le_compat_r. do 5 apply raise_if_above. apply raise_if_ge.
  - intros E. rewrite Hf, E. reflexivity.
Qed.

End EngineFacts.

(* ================================================================== *)
(** * Fault handling of the analyzers *)

Module AnalyzerFacts.
Import Risk Analyzers.

Lemma try_catch_handler_ok {A} (b : Exc A) (h : A) : exists a, try_catch b (Ok h) = Ok a.
Proof. destruct b as [a|]; simpl; eauto. Qed.

Lemma searchStep_ok (search : string -> Exc GitHubResult) (st : GhState) (term : string) :
  exists st', searchStep search st term = Ok st'.
Proof.
  destruct st as [[[found gh] flags] score]. unfold searchStep.
  destruct found; [eauto|]. apply try_catch_handler_ok.
Qed.

Lemma searchLoop_ok (search : string -> Exc GitHubResult) (terms : list string) (st : GhState) :
  exists st', searchLoop search terms st = Ok st'.
Proof.
  revert st. induction terms as [|tm terms IH]; intros st; simpl; [eauto|].
  destruct (searchStep_ok search st tm) as [st1 E]. rewrite E. simpl. apply IH.
Qed.

Lemma analyzeTransparency_ok (sym cname : option string) (address : string)
    (search : string -> Exc GitHubResult) (readme : Exc bool) :
  exists r, analyzeTransparency sym cname address search readme = Ok r.
Proof.
  unfold analyzeTransparency.
  destruct (searchLoop_ok search (searchTerms sym cname address) (false, gh_not_found, [], 0))
    as [[[[found gh] flags] score] E].
  rewrite E. cbn [exc_bind].
  destruct (negb found); cbn;
  (destruct (gh_found gh && match gh_repoUrl gh with Some _ => true | None => false end);
   [destruct (try_catch_handler_ok readme false) as [b Eb]; rewrite Eb; cbn; destruct (negb b)|]);
  cbn; eauto.
Qed.

Lemma ok_not_throw {A} (m : Exc A) : (exists a, m = Ok a) -> m <> Throw.
Proof. intros [a ->]. discriminate. Qed.

(** C7 (as stated, refuted). When the RPC provider fails for the contract
    analyzer ([getCode] rejects, and so would every later call), the
    failure is absorbed by [.catch(() => '0x')]: the analyzer returns the
    ordinary "not a contract" result with no flag and score 0, not an error
    flag with the fallback score 30. *)
Lemma contract_provider_failure_not_degraded :
  analyzeContract Throw Throw = Ok contract_not_a_contract /\
  c_flags contract_not_a_contract = [] /\ c_score contract_not_a_contract = 0 /\
  contract_not_a_contract <> contract_fallback.
Proof. repeat split; try reflexivity. discriminate. Qed.

(** C7 (amended). No analyzer lets an exception escape: each of the five
    always returns a result.  When an exception reaches the outer [catch]
    of the contract, behaviour, wallet or scam-database analyzer, the
    result is the degraded one: a single error flag and the score 30, 30,
    20 or 5 respectively.  Provider failures that a per-call handler
    absorbs (such as [getCode] failing in the contract analyzer, read as
    "0x") give an ordinary result built from the default value instead;
    the transparency analyzer has no outer handler and absorbs the
    failures of its GitHub searches and README fetch one by one. *)
Theorem analyzers_fail_soft :
  (forall getCode deep, analyzeContract getCode deep <> Throw) /\
  (forall body h, analyzeOnChainBehavior body h <> Throw) /\
  (forall body, analyzeWalletHistory body <> Throw) /\
  (forall body, checkScamDatabase body <> Throw) /\
  (forall sym cname address search readme,
      analyzeTransparency sym cname address search readme <> Throw) /\
  (forall code, isContractCode code = true ->
      analyzeContract (Ok code) Throw = Ok contract_fallback) /\
  (forall h, analyzeOnChainBehavior Throw h = Ok (onchain_fallback h)) /\
  analyzeWalletHistory Throw = Ok wallet_fallback /\
  checkScamDatabase Throw = Ok scam_fallback /\
  (forall deep, analyzeContract Throw deep = Ok contract_not_a_contract) /\
  (List.length (c_flags contract_fallback) = 1%nat /\ c_score contract_fallback = 30) /\
  (forall h, List.length (o_flags (onchain_fallback h)) = 1%nat /\ o_score (onchain_fallback h) = 30) /\
  (List.length (w_flags wallet_fallback) = 1%nat /\ w_score wallet_fallback = 20) /\
  (List.length (s_flags scam_fallback) = 1%nat /\ s_score scam_fallback = 5).
Proof.
  split. { intros getCode deep. apply ok_not_throw. apply try_catch_handler_ok. }
  split. { intros body h. apply ok_not_throw. apply try_catch_handler_ok. }
  split. { intros body. apply ok_not_throw. apply try_catch_handler_ok. }
  split. { intros body. apply ok_not_throw. apply try_catch_handler_ok. }
  split. { intros. apply ok_not_throw. apply analyzeTransparency_ok. }
  split. { intros code Hc. unfold analyzeContract. simpl. rewrite Hc. reflexivity. }
  repeat split; reflexivity.
Qed.

End AnalyzerFacts.

(* ================================================================== *)
(** * Fail-safe behaviour of the Guardian *)

Module GuardianFacts.
Import Decision Guardian.

(** C6. [checkAddress] never lets an exception escape.  The only step of
    its [try] block that can raise an unhandled exception is the analysis
    (the decision is a total pure function, and a failure of the Sentinel
    escalation is caught by its own inner handler, leaving the response
    as it was); when the analysis throws, the response is exactly the
    fail-safe one: not allowed, BLOCK, risk score 100, high confidence,
    the fixed "could not complete" reasoning, and the error counter goes up. *)
Theorem guardian_fail_safe (cfg : GuardianConfig) (now : Z)
    (analysis : Exc Engine.RiskIntelligenceResult) (escalation : Exc unit) (st : GuardianState) :
  checkAddress cfg now analysis escalation st <> Throw /\
  (analysis = Throw ->
     exists st', checkAddress cfg now analysis escalation st = Ok (st', failSafeResponse) /\
                 errorsTotal st' = S (errorsTotal st)) /\
  (r_allowed failSafeResponse = false /\ r_level failSafeResponse = BLOCK /\
   r_recommended_action failSafeResponse = BLOCK /\ r_riskScore failSafeResponse = 100%Q /\
   r_confidence failSafeResponse = high /\ r_reasoning failSafeResponse = CouldNotComplete) /\
  checkAddress cfg now analysis Throw st = checkAddress cfg now analysis (Ok tt) st.
Proof.
  split; [|split; [|split]].
  - unfold checkAddress. destruct analysis as [r|]; simpl; [|discriminate].
    destruct (70 <=? Engine.risk_score r); [destruct escalation|]; simpl; discriminate.
  - intros ->. simpl. eexists. split; reflexivity.
  - repeat split.
  - unfold checkAddress. destruct analysis as [r|]; simpl; [|reflexivity].
    destruct (70 <=? Engine.risk_score r); reflexivity.
Qed.

Example guardian_examples :
  let res := Engine.mkResult 90 Engine.VeryHigh Engine.contract (Engine.mkBreakdown 90 90 90)
               (Engine.mkCalc (Engine.mkBreakdown 90 90 90) [] 90) in
  let st0 := mkGuardianState 0 0 0 0 None in
  let cfg := mkGuardianConfig 60 false in
  checkAddress cfg 5 Throw (Ok tt) st0 = Ok (mkGuardianState 1 1 0 0 (Some 5), failSafeResponse) /\
  exists st', checkAddress cfg 5 (Ok res) Throw st0 =
    Ok (st', mkResponse false BLOCK BLOCK 90 (FromDecision (ExceedsThreshold 90 60)) medium).
Proof. split; [reflexivity | eexists; reflexivity]. Qed.

End GuardianFacts.

(* ================================================================== *)
(** * Properties of the Sentinel *)

Module SentinelFacts.
Import Decision Sentinel.

Lemma key_eqb_spec (k1 k2 : string * Z) : key_eqb k1 k2 = true <-> k1 = k2.
Proof.
  destruct k1 as [a1 s1], k2 as [a2 s2]. unfold key_eqb; simpl.
  rewrite andb_true_iff, String.eqb_eq, Z.eqb_eq. split.
  - intros [-> ->]. reflexivity.
  - intros H. inversion H. auto.
Qed.

Lemma key_eqb_refl (k : string * Z) : key_eqb k k = true.
Proof. apply key_eqb_spec. reflexivity. Qed.

Lemma key_eqb_sym (k1 k2 : string * Z) : key_eqb k1 k2 = key_eqb k2 k1.
Proof.
  destruct (key_eqb k2 k1) eqn:E.
  - apply key_eqb_spec in E. subst. apply key_eqb_refl.
  - destruct (key_eqb k1 k2) eqn:F; [|reflexivity].
    apply key_eqb_spec in F. subst. rewrite key_eqb_refl in E. discriminate.
Qed.

Lemma key_mem_snoc (k k' : string * Z) (s : list (string * Z)) :
  key_mem k (s ++ [k']) = key_mem k s || key_eqb k k'.
Proof. unfold key_mem. rewrite existsb_app. simpl. rewrite orb_false_r. reflexivity. Qed.

Lemma successes_snoc (k : string * Z) (l : list (string * Z * SubmitResult)) c :
  successes k (l ++ [c]) =
  (successes k l + (if key_eqb k (fst c) && confirmed c then 1 else 0))%nat.
Proof.
  unfold successes. rewrite filter_app, length_app. simpl.
  destruct (key_eqb k (fst c) && confirmed c); reflexivity.
Qed.

Lemma attempts_snoc (k : string * Z) (l : list (string * Z * SubmitResult)) c :
  attempts k (l ++ [c]) = (attempts k l + (if key_eqb k (fst c) then 1 else 0))%nat.
Proof.
  unfold attempts. rewrite filter_app, length_app. simpl.
  destruct (key_eqb k (fst c)); reflexivity.
Qed.

(** What one loop iteration does to the dedup set and the registry log:
    nothing, or one registry call for a pair not yet in the set, the pair
    being added exactly when the call is confirmed. *)
Lemma processAddress_cases (cfg : SentinelConfig) (env : CycleEnv) (st : SentinelState)
    (b : string) :
  let st' := processAddress cfg env st b in
  (submittedAlerts st' = submittedAlerts st /\ ledgerCalls st' = ledgerCalls st) \/
  (exists s r,
     analysis env b = Ok s /\
     shouldSubmitToRegistry (decideOnRisk (now env) (inject_Z s) (inject_Z (threshold cfg)))
       (inject_Z (threshold cfg)) = true /\
     key_mem (b, s) (submittedAlerts st) = false /\
     ledgerCalls st' = ledgerCalls st ++ [(b, s, r)] /\
     submittedAlerts st' =
       (if confirmed (b, s, r) then submittedAlerts st ++ [(b, s)] else submittedAlerts st)).
Proof.
  unfold processAddress.
  destruct (analysis env b) as [s|] eqn:Ea; [|left; auto].
  cbv zeta.
  destruct (shouldSubmitToRegistry (decideOnRisk (now env) (inject_Z s) (inject_Z (threshold cfg)))
              (inject_Z (threshold cfg))) eqn:Hs; [|left; auto].
  destruct (key_mem (b, s) (submittedAlerts st)) eqn:Hk; [left; auto|].
  right. exists s, (submitToRegistry env b s).
  unfold confirmed; simpl.
  destruct (success (submitToRegistry env b s) && is_some (sr_txHash (submitToRegistry env b s)));
    simpl; repeat split; auto.
Qed.

(** The dedup invariant: a pair is in the dedup set iff the registry log
    holds a confirmed call for it, and then exactly one. *)
Definition DedupInv (st : SentinelState) : Prop :=
  forall k, (key_mem k (submittedAlerts st) = true -> successes k (ledgerCalls st) = 1%nat) /\
            (key_mem k (submittedAlerts st) = false -> successes k (ledgerCalls st) = 0%nat).

Lemma processAddress_inv (cfg : SentinelConfig) (env : CycleEnv) (st : SentinelState) (b : string) :
  DedupInv st -> DedupInv (processAddress cfg env st b).
Proof.
  intros Hinv k.
  destruct (processAddress_cases cfg env st b) as [[Es El] | (s & r & _ & _ & Hk & El & Es)];
    rewrite ?Es, ?El; [apply Hinv|].
  rewrite successes_snoc. simpl fst.
  destruct (key_eqb k (b, s)) eqn:Ek.
  - apply key_eqb_spec in Ek. subst k.
    destruct (Hinv (b, s)) as [_ H0]. rewrite (H0 Hk).
    destruct (confirmed (b, s, r)); simpl.
    + rewrite key_mem_snoc, key_eqb_refl, orb_true_r. split; [reflexivity | discriminate].
    + rewrite Hk. split; [discriminate | reflexivity].
  - simpl. rewrite Nat.add_0_r.
    destruct (confirmed (b, s, r)); [rewrite key_mem_snoc, Ek, orb_false_r|]; apply Hinv.
Qed.

Lemma fold_processAddress_inv (cfg : SentinelConfig) (env : CycleEnv) (addrs : list string)
    (st : SentinelState) :
  DedupInv st -> DedupInv (fold_left (processAddress cfg env) addrs st).
Proof.
  revert st. induction addrs as [|b addrs IH]; intros st H; simpl; [exact H|].
  apply IH. apply processAddress_inv. exact H.
Qed.

Lemma inv_ext (st st' : SentinelState) :
  submittedAlerts st' = submittedAlerts st -> ledgerCalls st' = ledgerCalls st ->
  DedupInv st -> DedupInv st'.
Proof. intros Es El H k. rewrite Es, El. apply H. Qed.

Lemma step_inv (cfg : SentinelConfig) (st : SentinelState) (op : Op) :
  DedupInv st -> DedupInv (step cfg st op).
Proof.
  intros H. destruct op as [env | t a | a]; simpl.
  - unfold runMonitoringCycle. cbv zeta.
    destruct (Nat.eqb _ 0).
    + exact (inv_ext st _ eq_refl eq_refl H).
    + refine (inv_ext (fold_left (processAddress cfg env) _ _) _ eq_refl eq_refl _).
      apply fold_processAddress_inv. exact (inv_ext st _ eq_refl eq_refl H).
  - unfold addWatchAddress. destruct (negb _); exact H.
  - destruct (map_has a (alerts st)); exact H.
Qed.

Lemma run_inv (cfg : SentinelConfig) (ops : list Op) (st : SentinelState) :
  DedupInv st -> DedupInv (run cfg ops st).
Proof.
  unfold run. revert st. induction ops as [|op ops IH]; intros st H; simpl; [exact H|].
  apply IH. apply step_inv. exact H.
Qed.

Lemma initial_inv : DedupInv initial.
Proof. intros k. simpl. split; [discriminate | reflexivity]. Qed.

Lemma attempts_mono (cfg : SentinelConfig) (env : CycleEnv) (st : SentinelState) (b : string)
    (k : string * Z) :
  (attempts k (ledgerCalls st) <= attempts k (ledgerCalls (processAddress cfg env st b)))%nat.
Proof.
  destruct (processAddress_cases cfg env st b) as [[_ El] | (s & r & _ & _ & _ & El & _)];
    rewrite El; [lia|]. rewrite attempts_snoc. lia.
Qed.

Lemma processAddress_attempt (cfg : SentinelConfig) (env : CycleEnv) (st : SentinelState)
    (b : string) (s : Z) :
  analysis env b = Ok s ->
  shouldSubmitToRegistry (decideOnRisk (now env) (inject_Z s) (inject_Z (threshold cfg)))
    (inject_Z (threshold cfg)) = true ->
  key_mem (b, s) (submittedAlerts st) = false ->
  exists r, ledgerCalls (processAddress cfg env st b) = ledgerCalls st ++ [(b, s, r)].
Proof.
  intros Ea Hs Hk. unfold processAddress. rewrite Ea. cbv zeta. rewrite Hs, Hk. simpl.
  destruct (success (submitToRegistry env b s) && is_some (sr_txHash (submitToRegistry env b s)));
    eexists; reflexivity.
Qed.

Section Retry.
Variables (cfg : SentinelConfig) (env : CycleEnv) (a : string) (s : Z) (base : nat).
Hypothesis Ea : analysis env a = Ok s.
Hypothesis Hs : shouldSubmitToRegistry (decideOnRisk (now env) (inject_Z s) (inject_Z (threshold cfg)))
                  (inject_Z (threshold cfg)) = true.

Definition Attempted (st : SentinelState) : Prop := (base < attempts (a, s) (ledgerCalls st))%nat.
Definition Open (st : SentinelState) : Prop :=
  (base <= attempts (a, s) (ledgerCalls st))%nat /\
  (Attempted st \/ key_mem (a, s) (submittedAlerts st) = false).

Lemma retry_step (st : SentinelState) (b : string) :
  Open st -> Open (processAddress cfg env st b) /\
             (b = a -> Attempted (processAddress cfg env st b)).
Proof.
  intros [Hb Ho].
  pose proof (attempts_mono cfg env st b (a, s)) as Hm.
  assert (Hmono : Attempted st -> Attempted (processAddress cfg env st b)).
  { unfold Attempted. lia. }
  assert (Hhit : b = a -> Attempted (processAddress cfg env st b)).
  { intros ->. destruct (key_mem (a, s) (submittedAlerts st)) eqn:Hk.
    - destruct Ho as [Ho | Ho]; [exact (Hmono Ho) | congruence].
    - destruct (processAddress_attempt cfg env st a s Ea Hs Hk) as [r Er].
      unfold Attempted. rewrite Er, attempts_snoc. simpl. rewrite key_eqb_refl. lia. }
  split; [split; [lia|] | exact Hhit].
  destruct (String.eqb b a) eqn:Eba.
  - apply String.eqb_eq in Eba. left. exact (Hhit Eba).
  - destruct Ho as [Ho | Ho]; [left; exact (Hmono Ho)|].
    right.
    destruct (processAddress_cases cfg env st b) as [[Es _] | (s' & r & _ & _ & _ & _ & Es)];
      rewrite Es; [exact Ho|].
    destruct (confirmed (b, s', r)); [|exact Ho].
    rewrite key_mem_snoc, Ho. simpl.
    destruct (key_eqb (a, s) (b, s')) eqn:E; [|reflexivity].
    apply key_eqb_spec in E. inversion E. subst. rewrite String.eqb_refl in Eba. discriminate.
Qed.

Lemma attempted_fold (addrs : list string) (st : SentinelState) :
  Attempted st -> Attempted (fold_left (processAddress cfg env) addrs st).
Proof.
  revert st. induction addrs as [|c addrs IH]; intros st H; simpl; [exact H|].
  apply IH. unfold Attempted in *. pose proof (attempts_mono cfg env st c (a, s)). lia.
Qed.

Lemma retry_fold (addrs : list string) (st : SentinelState) :
  Open st -> Open (fold_left (processAddress cfg env) addrs st) /\
             (In a addrs -> Attempted (fold_left (processAddress cfg env) addrs st)).
Proof.
  revert st. induction addrs as [|b addrs IH]; intros st Ho; simpl; [split; [exact Ho | contradiction]|].
  destruct (retry_step st b Ho) as [Ho1 Hhit].
  destruct (IH _ Ho1) as [Hf Hin]. split; [exact Hf|].
  intros [-> | Hi]; [|exact (Hin Hi)].
  apply attempted_fold. exact (Hhit eq_refl).
Qed.

End Retry.

(** C4. Over every sequence of monitoring cycles and watchlist edits
    from the initial Sentinel, each (address, score) pair has at most one
    confirmed ledger submission; the pair is in the dedup set exactly when
    such a confirmed submission happened (it is recorded only on
    success with a transaction hash); and a pair not in the set (its
    earlier submissions, if any, failed) that the next cycle observes again
    for a watched address at the same qualifying score gets a new
    submission attempt in that cycle. *)
Theorem sentinel_dedup_submissions (cfg : SentinelConfig) (ops : list Op) :
  let st := run cfg ops initial in
  (forall k, (successes k (ledgerCalls st) <= 1)%nat) /\
  (forall k, key_mem k (submittedAlerts st) = true <-> successes k (ledgerCalls st) = 1%nat) /\
  (forall (env : CycleEnv) (a : string) (s : Z),
     key_mem (a, s) (submittedAlerts st) = false ->
     In a (map_keys (alerts st)) ->
     analysis env a = Ok s ->
     shouldSubmitToRegistry (decideOnRisk (now env) (inject_Z s) (inject_Z (threshold cfg)))
       (inject_Z (threshold cfg)) = true ->
     (attempts (a, s) (ledgerCalls st) < attempts (a, s) (ledgerCalls (step cfg st (Cycle env))))%nat).
Proof.
  intros st.
  pose proof (run_inv cfg ops initial initial_inv) as Hinv. fold st in Hinv.
  split; [|split].
  - intros k. destruct (key_mem k (submittedAlerts st)) eqn:E;
      [rewrite (proj1 (Hinv k) E) | rewrite (proj2 (Hinv k) E)]; lia.
  - intros k. split; [exact (proj1 (Hinv k))|].
    intros H. destruct (key_mem k (submittedAlerts st)) eqn:E; [reflexivity|].
    rewrite (proj2 (Hinv k) E) in H. discriminate.
  - intros env a s Hk Hin Ea Hs. simpl step. unfold runMonitoringCycle. cbv zeta. cbn [alerts].
    destruct (Nat.eqb (List.length (alerts st)) 0) eqn:El.
    + apply Nat.eqb_eq in El. destruct (alerts st); [contradiction | discriminate].
    + cbn [ledgerCalls].
      refine (proj2 (retry_fold cfg env a s (attempts (a, s) (ledgerCalls st)) Ea Hs _ _ _) Hin).
      split; [cbn [ledgerCalls]; lia | right; exact Hk].
Qed.

Example dedup_example :
  let cfg := mkSentinelConfig 70 100 in
  let ok := mkSubmit true (Some "0xtx") (Some "0xh") in
  let fail := mkSubmit false None None in
  let env (r : SubmitResult) (t : Z) :=
    mkEnv (fun _ => Ok 90) (fun _ _ => Ok r) t (fun _ => t) in
  let st := run cfg [AddWatch 0 "0xa"; Cycle (env fail 1); Cycle (env ok 2); Cycle (env ok 3)]
              initial in
  List.length (ledgerCalls st) = 2%nat /\ submittedAlerts st = [("0xa", 90)] /\
  submissionsToChain st = 1%nat.
Proof. vm_compute. repeat split; reflexivity. Qed.

Lemma map_set_absent (k : string) (v : RiskAlert) (m : AlertMap) :
  map_get k m = None -> map_set k v m = m ++ [(k, v)].
Proof.
  induction m as [|[k' v'] m IH]; simpl; [reflexivity|].
  destruct (String.eqb k k'); [discriminate|]. intros H. rewrite (IH H). reflexivity.
Qed.

Lemma map_get_set_same (k : string) (v : RiskAlert) (m : AlertMap) :
  map_get k (map_set k v m) = Some v.
Proof.
  induction m as [|[k' v'] m IH]; simpl; [rewrite String.eqb_refl; reflexivity|].
  destruct (String.eqb k k') eqn:E; simpl; [rewrite String.eqb_refl; reflexivity|].
  rewrite E. exact IH.
Qed.

(** C10. [addWatchAddress] leaves the Sentinel unchanged (alert map and
    every alert field included) when the address is already watched; for
    an absent address it appends a placeholder alert with risk score 0,
    level ALLOW and [submittedToChain] false; so calling it twice is the
    same as calling it once. *)
Theorem addWatch_idempotent (now now' : Z) (a : string) (st : SentinelState) :
  (map_has a (alerts st) = true -> addWatchAddress now a st = st) /\
  (map_has a (alerts st) = false ->
     addWatchAddress now a st = set_alerts st (alerts st ++ [(a, placeholder a now)]) /\
     a_riskScore (placeholder a now) = 0 /\ a_level (placeholder a now) = ALLOW /\
     submittedToChain (placeholder a now) = false /\ a_timestamp (placeholder a now) = now) /\
  addWatchAddress now' a (addWatchAddress now a st) = addWatchAddress now a st.
Proof.
  split; [|split].
  - intros H. unfold addWatchAddress. rewrite H. reflexivity.
  - intros H. unfold addWatchAddress. rewrite H. simpl.
    unfold map_has in H. destruct (map_get a (alerts st)) eqn:E; [discriminate|].
    rewrite (map_set_absent _ _ _ E). repeat split.
  - unfold addWatchAddress at 2. destruct (map_has a (alerts st)) eqn:H; simpl.
    + unfold addWatchAddress. rewrite H. reflexivity.
    + unfold addWatchAddress at 1. simpl. unfold map_has. rewrite map_get_set_same. simpl.
      unfold addWatchAddress. rewrite H. reflexivity.
Qed.

Lemma length_map_set (k : string) (v : RiskAlert) (m : AlertMap) :
  (List.length (map_set k v m) <= S (List.length m))%nat.
Proof.
  induction m as [|[k' v'] m IH]; simpl; [lia|].
  destruct (String.eqb k k'); simpl; lia.
Qed.

Lemma In_insert_by_ts (x y : string * RiskAlert) (l : AlertMap) :
  In y (insert_by_ts x l) <-> x = y \/ In y l.
Proof.
  induction l as [|z l IH]; simpl; [tauto|].
  destruct (a_timestamp (snd z) <=? a_timestamp (snd x)); simpl; rewrite ?IH; tauto.
Qed.

Lemma In_sort_acc (y : string * RiskAlert) (m acc : AlertMap) :
  In y (fold_left (fun acc x => insert_by_ts x acc) m acc) <-> In y m \/ In y acc.
Proof.
  revert acc. induction m as [|x m IH]; intros acc; simpl; [tauto|].
  rewrite IH, In_insert_by_ts. tauto.
Qed.

Lemma map_delete_in (k : string) (m : AlertMap) :
  In k (map_keys m) -> S (List.length (map_delete k m)) = List.length m.
Proof.
  induction m as [|[k' v'] m IH]; simpl; [contradiction|].
  intros H. destruct (String.eqb k k') eqn:E; [reflexivity|].
  simpl. rewrite IH; [reflexivity|].
  destruct H as [H | H]; [|exact H]. subst. rewrite String.eqb_refl in E. discriminate.
Qed.

(** The per-cycle upsert keeps the cache within [maxAlerts] when it was
    within it before: a new entry pushes the size to at most one over
    the bound, and the entry that the timestamp sort puts first is then
    deleted. *)
Lemma updateAlert_keeps_bound (cfg : SentinelConfig) (t : Z) (address : string) (score : Z)
    (lvl : DecisionLevel) (rsn : Reasoning) (m : AlertMap) :
  Z.of_nat (List.length m) <= maxAlerts cfg ->
  Z.of_nat (List.length (updateAlert cfg t address score lvl rsn m)) <= maxAlerts cfg.
Proof.
  intros Hm. unfold updateAlert. cbv zeta.
  match goal with |- context [map_set address ?v m] => set (m1 := map_set address v m) end.
  assert (Hl : (List.length m1 <= S (List.length m))%nat) by apply length_map_set.
  assert (Hne : m1 <> []).
  { unfold m1. destruct m as [|[k' v'] m']; simpl; [|destruct (String.eqb address k')];
      discriminate. }
  clearbody m1.
  destruct (maxAlerts cfg <? Z.of_nat (List.length m1)) eqn:Ho.
  - apply Z.ltb_lt in Ho.
    destruct (sort_by_ts m1) as [|oldest rest] eqn:Es.
    { exfalso. destruct m1 as [|x0 r0]; [apply Hne; reflexivity|].
      assert (H : In x0 (sort_by_ts (x0 :: r0)))
        by (unfold sort_by_ts; apply In_sort_acc; left; left; reflexivity).
      rewrite Es in H. exact H. }
    assert (Hin : In oldest m1).
    { assert (H : In oldest (sort_by_ts m1)) by (rewrite Es; left; reflexivity).
      unfold sort_by_ts in H. apply In_sort_acc in H. destruct H as [H | []]. exact H. }
    assert (Hk : In (fst oldest) (map_keys m1)) by (apply in_map; exact Hin).
    pose proof (map_delete_in (fst oldest) m1 Hk). lia.
  - apply Z.ltb_ge in Ho. exact Ho.
Qed.

(** C5 (code defect). [addWatchAddress] inserts without the capacity
    check that [updateAlert] performs: with [maxAlerts = 1], watching two
    addresses leaves two alerts in the cache. *)
Lemma addWatch_exceeds_maxAlerts :
  let cfg := mkSentinelConfig 70 1 in
  let st := run cfg [AddWatch 1 "0xa"; AddWatch 2 "0xb"] initial in
  maxAlerts cfg < Z.of_nat (List.length (alerts st)) /\ List.length (alerts st) = 2%nat.
Proof. vm_compute. split; reflexivity. Qed.

End SentinelFacts.

(* ================================================================== *)
(** * The engine's adjustments, levels and ranges *)

Module EngineFacts2.
Import Risk Engine.

Lemma risk_level_of_score (c : ContractAnalysis) (o : OnChainBehaviorAnalysis)
    (w : WalletHistoryAnalysis) (t : TransparencyAnalysis) (s : ScamDatabaseAnalysis) :
  risk_level (analyzeRiskIntelligence c o w t s) =
  getRiskLevel (risk_score (analyzeRiskIntelligence c o w t s)).
Proof. reflexivity. Qed.

Lemma getRiskLevel_very_high (x : Z) : 80 <= x -> getRiskLevel x = VeryHigh.
Proof.
  intros H. unfold getRiskLevel.
  rewrite (proj2 (Z.ltb_ge x 20)), (proj2 (Z.ltb_ge x 40)), (proj2 (Z.ltb_ge x 60)),
    (proj2 (Z.ltb_ge x 80)) by lia.
  reflexivity.
Qed.

(** The numbers an adjustment entry records. *)
Definition adj_bounds (a : Adjustment) : option (Z * Z) :=
  match a with
  | CriticalFloor f t _ | HighFlagFloor f t _ | ComponentFloor f t _
  | ScamDbFloor f t | RugpullFloor f t | FlagCountFloor f t _ => Some (f, t)
  | NoAdjustments => None
  end.

(** [raises_from x l y]: the entries of [l] raise the score step by step,
    each strictly, from [x] to [y]. *)
Fixpoint raises_from (x : Z) (l : list Adjustment) (y : Z) : Prop :=
  match l with
  | [] => x = y
  | a :: l' => exists t, adj_bounds a = Some (x, t) /\ x < t /\ raises_from t l' y
  end.

Lemma raises_snoc (x y z : Z) (l : list Adjustment) (a : Adjustment) :
  raises_from x l y -> adj_bounds a = Some (y, z) -> y < z -> raises_from x (l ++ [a]) z.
Proof.
  revert x. induction l as [|b l IH]; intros x H Ha Hyz; simpl in *.
  - subst. exists z. auto.
  - destruct H as (t & Hb & Hxt & H). exists t. auto.
Qed.

Lemma raises_lt (x y : Z) (l : list Adjustment) : l <> [] -> raises_from x l y -> x < y.
Proof.
  revert x. induction l as [|a l IH]; intros x Hne H; [congruence|].
  destruct H as (t & _ & Hxt & H). destruct l as [|b l'].
  - simpl in H. lia.
  - assert (t < y) by (apply (IH t); [discriminate | exact H]). lia.
Qed.

Lemma floorStep_raises_from (x : Z) (cond : bool) (v : Z) (mk : Z -> Z -> Adjustment)
    (st : Z * list Adjustment) :
  (forall a b, adj_bounds (mk a b) = Some (a, b)) ->
  raises_from x (snd st) (fst st) ->
  raises_from x (snd (floorStep cond v mk st)) (fst (floorStep cond v mk st)).
Proof.
  intros Hmk H. destruct st as [y adj]. unfold floorStep.
  destruct cond; [|exact H].
  destruct (y <? Z.max v y) eqn:E; [|exact H].
  apply Z.ltb_lt in E. simpl. apply raises_snoc with y; auto.
Qed.

(** X1. The adjustment list of every result is either the single
    "no adjustments" entry, and the final score is the weighted score capped
    at 100, or a list of floor entries each recording a strict raise, the
    first starting from the weighted score and each starting where the
    previous one ended, the final score being the last one's value capped
    at 100. *)
Theorem analyze_adjustments_chain (c : ContractAnalysis) (o : OnChainBehaviorAnalysis)
    (w : WalletHistoryAnalysis) (t : TransparencyAnalysis) (s : ScamDatabaseAnalysis) :
  let r := analyzeRiskIntelligence c o w t s in
  let w0 := weightedScore (contractRiskRaw c) (behaviorRiskRaw o w) (reputationRiskRaw t s) in
  (adjustments (scoreCalculation r) = [NoAdjustments] /\ risk_score r = Z.min w0 100) \/
  (exists top, w0 < top /\ raises_from w0 (adjustments (scoreCalculation r)) top /\
               risk_score r = Z.min top 100).
Proof.
  cbv zeta. unfold analyzeRiskIntelligence. cbv zeta.
  cbn [risk_score scoreCalculation adjustments].
  match goal with
  | |- context [Z.min (fst ?S) 100] =>
      assert (HS : raises_from (weightedScore (contractRiskRaw c) (behaviorRiskRaw o w)
                                  (reputationRiskRaw t s)) (snd S) (fst S));
      [ | destruct S as [top adj]; cbn [fst snd] in * ]
  end.
  - repeat (apply floorStep_raises_from; [intros; reflexivity|]). reflexivity.
  - destruct adj as [|a adj'].
    + left. simpl in HS. subst top. split; reflexivity.
    + right. exists top. split; [apply (raises_lt _ _ (a :: adj')); [discriminate | exact HS]|].
      split; [exact HS | reflexivity].
Qed.

Lemma inject_Z_nonneg (z : Z) : 0 <= z -> (0 <= inject_Z z)%Q.
Proof. intros H. unfold Qle. simpl. lia. Qed.

Lemma Math_round_nonneg (q : Q) : (0 <= q)%Q -> 0 <= Math_round q.
Proof.
  intros H. unfold Math_round.
  assert (Hf : (Qfloor 0 <= Qfloor (q + (1 # 2)))%Z) by (apply Qfloor_resp_le; lra).
  exact Hf.
Qed.

(** X2. When the five analyzers report scores in [0, 100], as their
    [Math.min(score, 100)] and non-negative weights make them, the three
    sub-scores and the final score are in [0, 100] as well. *)
Theorem analyze_scores_in_range (c : ContractAnalysis) (o : OnChainBehaviorAnalysis)
    (w : WalletHistoryAnalysis) (t : TransparencyAnalysis) (s : ScamDatabaseAnalysis)
    (Hc : 0 <= c_score c <= 100) (Ho : 0 <= o_score o <= 100) (Hw : 0 <= w_score w <= 100)
    (Ht : 0 <= t_score t <= 100) (Hs : 0 <= s_score s <= 100) :
  let r := analyzeRiskIntelligence c o w t s in
  0 <= contract_risk (breakdown r) <= 100 /\ 0 <= behavior_risk (breakdown r) <= 100 /\
  0 <= reputation_risk (breakdown r) <= 100 /\ 0 <= risk_score r <= 100.
Proof.
  intros r.
  pose proof (inject_Z_nonneg _ (proj1 Ho)). pose proof (inject_Z_nonneg _ (proj1 Hw)).
  pose proof (inject_Z_nonneg _ (proj1 Ht)). pose proof (inject_Z_nonneg _ (proj1 Hs)).
  assert (Hb : 0 <= behaviorRiskRaw o w <= 100).
  { unfold behaviorRiskRaw. split; [|lia]. apply Z.min_glb; [|lia].
    apply Math_round_nonneg. unfold Qdiv in *. lra. }
  assert (Hr : 0 <= reputationRiskRaw t s <= 100).
  { unfold reputationRiskRaw. split; [|lia]. apply Z.min_glb; [|lia].
    apply Math_round_nonneg. lra. }
  assert (Hw0 : 0 <= weightedScore (contractRiskRaw c) (behaviorRiskRaw o w) (reputationRiskRaw t s)).
  { unfold weightedScore, W_contract, W_behavior, W_reputation. apply Math_round_nonneg.
    pose proof (inject_Z_nonneg _ (proj1 Hc)).
    pose proof (inject_Z_nonneg _ (proj1 Hb)). pose proof (inject_Z_nonneg _ (proj1 Hr)).
    unfold contractRiskRaw. lra. }
  split; [exact Hc|]. split; [exact Hb|]. split; [exact Hr|].
  unfold r. rewrite EngineFacts.final_is_chain. split; [|lia].
  apply Z.min_glb; [|lia]. unfold EngineFacts.spec_floor_chain. cbv zeta.
  do 6 apply EngineFacts.raise_if_above. exact Hw0.
Qed.

Lemma analyze_scores_in_range_witness :
  let c := mkContract true [] 25 in
  let o := mkOnChain [] 15 false in
  let w := mkWallet [] 0 [] [] in
  let t := mkTransparency [] 32 in
  let s := mkScam [] 0 false false false in
  (0 <= c_score c <= 100 /\ 0 <= o_score o <= 100 /\ 0 <= w_score w <= 100 /\
   0 <= t_score t <= 100 /\ 0 <= s_score s <= 100) /\
  (let r := analyzeRiskIntelligence c o w t s in
   0 <= contract_risk (breakdown r) <= 100 /\ 0 <= behavior_risk (breakdown r) <= 100 /\
   0 <= reputation_risk (breakdown r) <= 100 /\ 0 <= risk_score r <= 100).
Proof.
  cbv zeta. split; [simpl; lia|].
  apply analyze_scores_in_range; simpl; lia.
Defined.

End EngineFacts2.

(* ================================================================== *)
(** * Address validation and normalization *)

Module ValidationFacts.
Import JsString Validation.

(** A case analysis over the 256 byte values. *)
Ltac ascii_cases c :=
  destruct c as [[] [] [] [] [] [] [] []];
  cbv; first [reflexivity | intros ?; first [reflexivity | discriminate]].

Lemma lower_ascii_idem (c : ascii) : lower_ascii (lower_ascii c) = lower_ascii c.
Proof. ascii_cases c. Qed.

Lemma lower_ascii_hex (c : ascii) : is_hex c = true -> is_hex (lower_ascii c) = true.
Proof. ascii_cases c. Qed.

Lemma hex_not_ws (c : ascii) : is_hex c = true -> is_ws c = false.
Proof. ascii_cases c. Qed.

Lemma toLowerCase_idem (s : string) : toLowerCase (toLowerCase s) = toLowerCase s.
Proof. induction s as [|c s IH]; simpl; [reflexivity|]. rewrite lower_ascii_idem, IH. reflexivity. Qed.

Lemma toLowerCase_length (s : string) : String.length (toLowerCase s) = String.length s.
Proof. induction s as [|c s IH]; simpl; [reflexivity|]. rewrite IH. reflexivity. Qed.

Lemma toLowerCase_hex (s : string) :
  forallb is_hex (list_ascii_of_string s) = true ->
  forallb is_hex (list_ascii_of_string (toLowerCase s)) = true.
Proof.
  induction s as [|c s IH]; simpl; [reflexivity|].
  rewrite !andb_true_iff. intros [Hc Hs]. split; [apply lower_ascii_hex; exact Hc | exact (IH Hs)].
Qed.

(** No white space in [s]: [trim] leaves it as it is. *)
Definition no_ws (s : string) : bool := forallb (fun c => negb (is_ws c)) (list_ascii_of_string s).

Lemma trimEnd_no_ws (s : string) : no_ws s = true -> trimEnd s = s.
Proof.
  unfold no_ws. induction s as [|c s IH]; simpl; [reflexivity|].
  rewrite andb_true_iff, negb_true_iff. intros [Hc Hs]. rewrite (IH Hs), Hc. reflexivity.
Qed.

Lemma trim_no_ws (s : string) : no_ws s = true -> trim s = s.
Proof.
  intros H. unfold trim. destruct s as [|c s]; [reflexivity|].
  pose proof H as H'. unfold no_ws in H'. simpl in H'. apply andb_true_iff in H'.
  destruct H' as [Hc _]. apply negb_true_iff in Hc.
  simpl trimStart. rewrite Hc. apply trimEnd_no_ws. exact H.
Qed.

Lemma hex_no_ws (s : string) :
  forallb is_hex (list_ascii_of_string s) = true -> no_ws s = true.
Proof.
  unfold no_ws. induction s as [|c s IH]; simpl; [reflexivity|].
  rewrite !andb_true_iff. intros [Hc Hs]. rewrite (hex_not_ws c Hc). split; [reflexivity | exact (IH Hs)].
Qed.

Lemma addressRegex_shape (s : string) :
  addressRegex_test s = true ->
  exists rest, s = String "0"%char (String "x"%char rest) /\ String.length rest = 40%nat /\
               forallb is_hex (list_ascii_of_string rest) = true.
Proof.
  destruct s as [|c0 [|c1 rest]]; simpl; try discriminate.
  rewrite !andb_true_iff, Nat.eqb_eq. intros [[[H0 H1] Hl] Hh].
  apply Ascii.eqb_eq in H0, H1. subst. exists rest. auto.
Qed.

Lemma normalize_valid_core (a : string) (Hv : isValidAddress a = true) :
  let n := normalizeAddress a in
  isValidAddress n = true /\ normalizeAddress n = n /\ String.length n = 42%nat /\
  toLowerCase n = n.
Proof.
  intros n. unfold isValidAddress in Hv. apply andb_true_iff in Hv. destruct Hv as [_ Hr].
  destruct (addressRegex_shape _ Hr) as (rest & Es & Hl & Hh).
  assert (En : n = String "0"%char (String "x"%char (toLowerCase rest))).
  { unfold n, normalizeAddress. rewrite Es. reflexivity. }
  assert (Hlow : forallb is_hex (list_ascii_of_string (toLowerCase rest)) = true)
    by (apply toLowerCase_hex; exact Hh).
  assert (Hn : no_ws n = true).
  { rewrite En. unfold no_ws. simpl. apply hex_no_ws. exact Hlow. }
  assert (Ht : trim n = n) by (apply trim_no_ws; exact Hn).
  assert (Hidem : toLowerCase n = n).
  { unfold n, normalizeAddress. apply toLowerCase_idem. }
  split; [|split; [|split]].
  - unfold isValidAddress. rewrite Ht. rewrite En. simpl.
    rewrite toLowerCase_length, Hl, Hlow. reflexivity.
  - unfold normalizeAddress. rewrite Ht. exact Hidem.
  - rewrite En. simpl. rewrite toLowerCase_length, Hl. reflexivity.
  - exact Hidem.
Qed.



End ValidationFacts.

(* ================================================================== *)
(** * The scam database check *)

Module ScamDbFacts.
Import Risk JsString ScamDb.

Definition sum_weights (fs : list EvidenceFlag) : Z := fold_right (fun f acc => riskWeight f + acc) 0 fs.

Lemma sum_weights_app (l1 l2 : list EvidenceFlag) :
  sum_weights (l1 ++ l2) = sum_weights l1 + sum_weights l2.
Proof. induction l1 as [|f l1 IH]; simpl; [reflexivity|]. rewrite IH. lia. Qed.

Lemma truthy_lookup (k : string) :
  truthy (scam_lookup k) = true <->
  In k ["0x0000000000000000000000000000000000000001"; "constructor"; "__proto__"].
Proof.
  unfold scam_lookup, truthy. simpl.
  destruct (String.eqb k "0x0000000000000000000000000000000000000001") eqn:E1.
  - apply String.eqb_eq in E1. subst. simpl. tauto.
  - destruct (String.eqb k "constructor") eqn:E2; simpl.
    + apply String.eqb_eq in E2. subst. tauto.
    + destruct (String.eqb k "__proto__") eqn:E3; simpl.
      * apply String.eqb_eq in E3. subst. tauto.
      * apply String.eqb_neq in E1, E2, E3. split; [discriminate|].
        intros [H | [H | [H | []]]]; congruence.
Qed.

Lemma firstLinkedRug_some (cs : list string) :
  (exists c, firstLinkedRug cs = Some c) <->
  exists c, In c cs /\ truthy (scam_lookup (toLowerCase c)) = true.
Proof.
  induction cs as [|c cs IH]; simpl.
  - split; [intros [c H]; discriminate | intros [c [[] _]]].
  - destruct (truthy (scam_lookup (toLowerCase c))) eqn:E.
    + split; [intros _; exists c; auto | intros _; exists c; reflexivity].
    + rewrite IH. split.
      * intros [c' [Hin Ht]]. exists c'. auto.
      * intros [c' [[-> | Hin] Ht]]; [congruence | exists c'; auto].
Qed.

Definition clean_flag : EvidenceFlag := sflag "clean_scam_check" "No Scam Records Found" info 0.

(** X4. Whatever the address and the optional deployer and deployed
    contracts, the scam check reports at least one flag, its score is the
    sum of the reported flags' risk weights capped at 100, and the score is
    0 exactly when the only flag is the informational "no records" one. *)
Theorem scamCheck_score_from_flags (address : string) (deployer : option string)
    (deployed : option (list string)) :
  let r := scamCheckBody address deployer deployed in
  s_score r = Z.min (sum_weights (s_flags r)) 100 /\ s_flags r <> [] /\
  (s_score r = 0 <-> s_flags r = [clean_flag]).
Proof.
  unfold scamCheckBody.
  destruct (truthy (scam_lookup (toLowerCase address)));
  (destruct deployer as [dd|];
   [replace (set_has (toLowerCase dd) KNOWN_SCAM_DEPLOYERS) with false by reflexivity;
    rewrite andb_false_r|]);
  (destruct deployed as [cs|]; [destruct (firstLinkedRug cs)|]);
  destruct (set_has (substring 2 8 (toLowerCase address)) suspiciousPrefixes);
  simpl; (split; [reflexivity|split; [discriminate|split; intros H; try discriminate H; reflexivity]]).
Qed.

Lemma scamCheck_fields (address : string) (deployer : option string)
    (deployed : option (list string)) :
  let r := scamCheckBody address deployer deployed in
  s_knownScam r = truthy (scam_lookup (toLowerCase address)) /\
  s_isBlacklisted r = false /\
  s_rugpullHistory r =
    match deployed with
    | Some cs => match firstLinkedRug cs with Some _ => true | None => false end
    | None => false
    end.
Proof.
  unfold scamCheckBody.
  destruct (truthy (scam_lookup (toLowerCase address)));
  (destruct deployer as [dd|];
   [replace (set_has (toLowerCase dd) KNOWN_SCAM_DEPLOYERS) with false by reflexivity;
    rewrite andb_false_r|]);
  (destruct deployed as [cs|]; [destruct (firstLinkedRug cs)|]);
  destruct (set_has (substring 2 8 (toLowerCase address)) suspiciousPrefixes);
  simpl; auto.
Qed.

(** X5. With the lists the code ships (one test entry in
    [KNOWN_SCAM_ADDRESSES], no scam deployer, honeypot or community
    blacklist entry), the check never reports [isBlacklisted]; it reports
    [knownScam] exactly when the lower-cased address is the test entry or
    names a property of [Object.prototype] ("constructor", "__proto__"),
    which the object lookup finds as well; and it reports a rugpull
    history exactly when a deployed contract's lower-cased address is one
    of those keys. *)
Theorem scamCheck_shipped_lists (address : string) (deployer : option string)
    (deployed : option (list string)) :
  let r := scamCheckBody address deployer deployed in
  let keys := ["0x0000000000000000000000000000000000000001"; "constructor"; "__proto__"] in
  s_isBlacklisted r = false /\
  (s_knownScam r = true <-> In (toLowerCase address) keys) /\
  (s_rugpullHistory r = true <->
     exists cs c, deployed = Some cs /\ In c cs /\ In (toLowerCase c) keys).
Proof.
  intros r keys.
  destruct (scamCheck_fields address deployer deployed) as (Hk & Hb & Hr). fold r in Hk, Hb, Hr.
  split; [exact Hb|]. split.
  - rewrite Hk. apply truthy_lookup.
  - rewrite Hr. destruct deployed as [cs|].
    + split.
      * intros H. destruct (firstLinkedRug cs) as [c|] eqn:E; [|discriminate].
        destruct (proj1 (firstLinkedRug_some cs) (ex_intro _ c E)) as [c' [Hin Ht]].
        exists cs, c'. split; [reflexivity|]. split; [exact Hin|]. apply truthy_lookup. exact Ht.
      * intros (cs' & c & Ec & Hin & Hkey). injection Ec as <-.
        destruct (proj2 (firstLinkedRug_some cs)) as [c' E].
        { exists c. split; [exact Hin|]. apply truthy_lookup. exact Hkey. }
        rewrite E. reflexivity.
    + split; [discriminate|]. intros (cs & c & E & _). discriminate.
Qed.

(** X6. The check only sees the lower-cased address: two addresses that
    differ only in letter case get the same result. *)
Theorem scamCheck_case_insensitive (a b : string) (deployer : option string)
    (deployed : option (list string)) (Hab : toLowerCase a = toLowerCase b) :
  scamCheckBody a deployer deployed = scamCheckBody b deployer deployed.
Proof. unfold scamCheckBody. rewrite Hab. reflexivity. Qed.

Lemma scamCheck_case_insensitive_witness :
  toLowerCase "0xDeadBeef" = toLowerCase "0xdeadbeef" /\
  scamCheckBody "0xDeadBeef" None None = scamCheckBody "0xdeadbeef" None None.
Proof.
  split; [vm_compute; reflexivity|].
  apply scamCheck_case_insensitive. vm_compute. reflexivity.
Defined.



End ScamDbFacts.

(* ================================================================== *)
(** * Contract and transparency analyzers *)

Module AnalyzerFacts2.
Import Risk Analyzers.

(** X8. When the provider's [getCode] fails (the [.catch] yields "0x") or
    returns at most two characters, [analyzeContract] reports "not a
    contract" without running the deep analysis, and the engine then
    classifies the address as a wallet with contract risk 0, whatever the
    other analyzers report (a DEX pair included). *)
Theorem analyzeContract_no_code_wallet (getCode : Exc string) (deep : Exc ContractAnalysis)
    (Hcode : getCode = Throw \/ exists code, getCode = Ok code /\ (String.length code <= 2)%nat) :
  analyzeContract getCode deep = Ok contract_not_a_contract /\
  forall o w t s,
    Engine.addressType (Engine.analyzeRiskIntelligence contract_not_a_contract o w t s) = Engine.wallet /\
    Engine.contract_risk (Engine.breakdown
      (Engine.analyzeRiskIntelligence contract_not_a_contract o w t s)) = 0.
Proof.
  split; [|intros; split; reflexivity].
  unfold analyzeContract.
  assert (H : isContractCode (catch_default getCode "0x") = false).
  { destruct Hcode as [-> | (code & -> & Hl)]; [reflexivity|].
    unfold isContractCode. simpl catch_default.
    replace (2 <? Z.of_nat (String.length code)) with false by (symmetry; apply Z.ltb_ge; lia).
    apply andb_false_r. }
  rewrite H. reflexivity.
Qed.

Lemma analyzeContract_no_code_wallet_witness :
  (Ok "0x" = @Throw string \/ exists code, Ok "0x" = Ok code /\ (String.length code <= 2)%nat) /\
  (analyzeContract (Ok "0x") Throw = Ok contract_not_a_contract /\
   forall o w t s,
     Engine.addressType (Engine.analyzeRiskIntelligence contract_not_a_contract o w t s) = Engine.wallet /\
     Engine.contract_risk (Engine.breakdown
       (Engine.analyzeRiskIntelligence contract_not_a_contract o w t s)) = 0).
Proof.
  split; [right; exists "0x"; split; [reflexivity | simpl; lia]|].
  apply analyzeContract_no_code_wallet. right. exists "0x". split; [reflexivity | simpl; lia].
Defined.

Definition init_gh : GhState := (false, gh_not_found, [], 0).

(** The search loop's state: the initial one, or a found repository with
    the flags of its evaluation and their total weight. *)
Definition ghInv (st : GhState) : Prop :=
  st = init_gh \/
  exists gh flags score, st = (true, gh, flags, score) /\
    score = ScamDbFacts.sum_weights flags /\ 0 <= score <= 23.

Lemma evalGitHub_props (r : GitHubResult) :
  let '(fl, sc) := evalGitHub r [] 0 in sc = ScamDbFacts.sum_weights fl /\ 0 <= sc <= 23.
Proof.
  unfold evalGitHub.
  destruct (gh_daysSinceCommit r) as [d|]; [destruct (180 <? d)|];
  destruct (gh_contributorsCount r) as [n|]; try destruct (n <=? 1);
  destruct (gh_starsCount r) as [k|]; try destruct (k <? 5);
  simpl; lia.
Qed.

Lemma searchStep_inv (search : string -> Exc GitHubResult) (st st' : GhState) (term : string) :
  ghInv st -> searchStep search st term = Ok st' -> ghInv st'.
Proof.
  intros [-> | (gh & fl & sc & -> & Hs & Hb)] E.
  - unfold searchStep, init_gh in E.
    destruct (search term) as [r|]; simpl in E; [|injection E as <-; left; reflexivity].
    destruct (gh_found r); [|injection E as <-; left; reflexivity].
    pose proof (evalGitHub_props r) as Hp.
    destruct (evalGitHub r [] 0) as [fl sc]. injection E as <-.
    right. exists r, fl, sc. destruct Hp. auto.
  - simpl in E. injection E as <-. right. exists gh, fl, sc. auto.
Qed.

Lemma searchLoop_inv (search : string -> Exc GitHubResult) (terms : list string) (st st' : GhState) :
  ghInv st -> searchLoop search terms st = Ok st' -> ghInv st'.
Proof.
  revert st. induction terms as [|tm terms IH]; intros st H E; simpl in E.
  - injection E as <-. exact H.
  - destruct (searchStep search st tm) as [st1|] eqn:E1; [|discriminate].
    simpl in E. apply (IH st1); [apply (searchStep_inv search st st1 tm H E1) | exact E].
Qed.

(** X9. [analyzeTransparency] always returns (it has no outer [try] but
    nothing in it throws); its score is the sum of the weights of the flags
    it reports, between 8 and 43 (so the [Math.min(score, 100)] never
    applies), and its last flag is always "team not doxxed". *)
Theorem transparency_score_from_flags (sym cname : option string) (address : string)
    (search : string -> Exc GitHubResult) (readme : Exc bool) :
  exists res, analyzeTransparency sym cname address search readme = Ok res /\
    t_score res = ScamDbFacts.sum_weights (t_flags res) /\ 8 <= t_score res <= 43 /\
    exists fl, t_flags res = fl ++ [tflag "team_not_doxxed" low 8].
Proof.
  unfold analyzeTransparency.
  destruct (AnalyzerFacts.searchLoop_ok search (searchTerms sym cname address) init_gh) as [st E].
  pose proof (searchLoop_inv search _ init_gh st (or_introl eq_refl) E) as Hinv.
  unfold init_gh in E. rewrite E. cbn [exc_bind].
  destruct Hinv as [-> | (gh & fl & sc & -> & Hs & Hb)].
  - unfold init_gh. simpl. eexists. split; [reflexivity|]. simpl.
    split; [reflexivity|]. split; [lia|].
    exists [tflag "no_github" medium 12; tflag "no_audit" medium 12]. reflexivity.
  - cbn [negb].
    destruct (gh_found gh && match gh_repoUrl gh with Some _ => true | None => false end);
      [destruct (AnalyzerFacts.try_catch_handler_ok readme false) as [b Eb]; rewrite Eb;
       cbn [exc_bind]; destruct b|];
      cbn; (eexists; split; [reflexivity|]); cbn [t_score t_flags];
      rewrite ?ScamDbFacts.sum_weights_app; simpl; rewrite Z.min_l by lia;
      (split; [lia|split; [lia|eexists; reflexivity]]).
Qed.

Lemma searchLoop_not_found (search : string -> Exc GitHubResult) (terms : list string) :
  (forall term, match search term with Ok r => gh_found r = false | Throw => True end) ->
  searchLoop search terms init_gh = Ok init_gh.
Proof.
  intros Hnf. induction terms as [|tm terms IH]; [reflexivity|].
  simpl. unfold init_gh at 1. unfold searchStep.
  specialize (Hnf tm). destruct (search tm) as [r|]; simpl; [rewrite Hnf|]; exact IH.
Qed.

(** X10. When no search term finds a repository (every GitHub search
    fails or reports none), the README is never read and the result is the
    three flags "no GitHub", "no audit" and "team not doxxed" with score
    12 + 12 + 8 = 32. *)
Theorem transparency_no_repository (sym cname : option string) (address : string)
    (search : string -> Exc GitHubResult) (readme : Exc bool)
    (Hnf : forall term, match search term with Ok r => gh_found r = false | Throw => True end) :
  analyzeTransparency sym cname address search readme =
  Ok (mkTransparency [tflag "no_github" medium 12; tflag "no_audit" medium 12;
                      tflag "team_not_doxxed" low 8] 32).
Proof.
  unfold analyzeTransparency.
  pose proof (searchLoop_not_found search (searchTerms sym cname address) Hnf) as E.
  unfold init_gh in E. rewrite E. reflexivity.
Qed.

Lemma transparency_no_repository_witness :
  (forall term, match (fun _ : string => @Throw GitHubResult) term with
                | Ok r => gh_found r = false | Throw => True end) /\
  analyzeTransparency (Some "CAKE") None "0x0e09fabb73bd3ade0a17ecc321fd13a19e81ce82"
    (fun _ => Throw) (Ok true) =
  Ok (mkTransparency [tflag "no_github" medium 12; tflag "no_audit" medium 12;
                      tflag "team_not_doxxed" low 8] 32).
Proof.
  split; [intros; exact I|].
  apply transparency_no_repository. intros; exact I.
Defined.

End AnalyzerFacts2.

(* ================================================================== *)
(** * The explanation text *)

Module ExplanationFacts.
Import Risk Engine Explanation.

(** X11. The summary template is chosen by the same bands as the risk
    level ([getRiskLevel], cut-offs 20, 40, 60 and 80), embedding the type
    label and the score; there are 2 recommendations for the two lowest
    levels, 3 for Medium, 4 for High and 3 for VeryHigh. *)
Theorem explanation_follows_level (score : Z) (ty : AddressType) (c : ContractAnalysis)
    (o : OnChainBehaviorAnalysis) (w : WalletHistoryAnalysis) (t : TransparencyAnalysis)
    (s : ScamDatabaseAnalysis) :
  let e := generateExplanation score ty c o w t s in
  match getRiskLevel score, summary e with
  | VeryLow, VeryLowSummary l x | Low, LowSummary l x | Medium, ModerateSummary l x
  | High, HighSummary l x | VeryHigh, VeryHighSummary l x => l = typeLabel ty /\ x = score
  | _, _ => False
  end /\
  List.length (recommendations e) =
    match getRiskLevel score with
    | VeryLow | Low => 2%nat
    | Medium => 3%nat
    | High => 4%nat
    | VeryHigh => 3%nat
    end.
Proof.
  unfold generateExplanation, getRiskLevel. cbn [summary recommendations].
  repeat match goal with
         | |- context [?a <? ?b] => destruct (Z.ltb_spec a b)
         | |- context [?a <=? ?b] => destruct (Z.leb_spec a b)
         end; try lia; simpl; auto.
Qed.

(** Stable insertion sort by weight, heaviest first. *)
Fixpoint desc_sorted (l : list EvidenceFlag) : Prop :=
  match l with
  | [] => True
  | x :: l' => Forall (fun y => riskWeight y <= riskWeight x) l' /\ desc_sorted l'
  end.

Lemma In_insert_by_weight (x y : EvidenceFlag) (l : list EvidenceFlag) :
  In y (insert_by_weight x l) <-> x = y \/ In y l.
Proof.
  induction l as [|z l IH]; simpl; [tauto|].
  destruct (riskWeight x <=? riskWeight z); simpl; rewrite ?IH; tauto.
Qed.

Lemma In_sort_by_weight_acc (y : EvidenceFlag) (l acc : list EvidenceFlag) :
  In y (fold_left (fun acc x => insert_by_weight x acc) l acc) <-> In y l \/ In y acc.
Proof.
  revert acc. induction l as [|x l IH]; intros acc; simpl; [tauto|].
  rewrite IH, In_insert_by_weight. tauto.
Qed.

Lemma insert_by_weight_sorted (x : EvidenceFlag) (l : list EvidenceFlag) :
  desc_sorted l -> desc_sorted (insert_by_weight x l).
Proof.
  induction l as [|y l IH]; simpl; [intros _; split; [constructor | exact I]|].
  intros [Hy Hl]. destruct (Z.leb_spec (riskWeight x) (riskWeight y)) as [Hxy | Hxy].
  - split; [|exact (IH Hl)].
    apply Forall_forall. intros z Hz. apply In_insert_by_weight in Hz.
    destruct Hz as [<- | Hz]; [exact Hxy|]. rewrite Forall_forall in Hy. exact (Hy z Hz).
  - simpl. split; [|split; [exact Hy | exact Hl]].
    constructor; [lia|]. rewrite Forall_forall in *. intros z Hz. specialize (Hy z Hz). lia.
Qed.

Lemma sort_by_weight_sorted_acc (l acc : list EvidenceFlag) :
  desc_sorted acc -> desc_sorted (fold_left (fun acc x => insert_by_weight x acc) l acc).
Proof.
  revert acc. induction l as [|x l IH]; intros acc H; simpl; [exact H|].
  apply IH. apply insert_by_weight_sorted. exact H.
Qed.

Lemma desc_sorted_app (l1 l2 : list EvidenceFlag) :
  desc_sorted (l1 ++ l2) -> forall a b, In a l1 -> In b l2 -> riskWeight b <= riskWeight a.
Proof.
  induction l1 as [|x l1 IH]; simpl; [contradiction|].
  intros [Hx Hs] a b [<- | Ha] Hb.
  - rewrite Forall_forall in Hx. apply Hx. apply in_or_app. right. exact Hb.
  - exact (IH Hs a b Ha Hb).
Qed.

Lemma In_map_finding (f : EvidenceFlag) (l : list EvidenceFlag) :
  In (FlagFinding f) (map FlagFinding l) <-> In f l.
Proof.
  rewrite in_map_iff. split; [intros (g & E & H); injection E as ->; exact H|].
  intros H. exists f. auto.
Qed.

(** X12. The key findings list has between 1 and 5 entries; it is the
    single "no significant risk factors" message exactly when every flag of
    the five analyzers is informational; every other entry shows a
    non-informational flag of the analyzers; and a non-informational flag
    left out is only left out when five flags are shown, none of them
    lighter than it. *)
Theorem explanation_key_findings (score : Z) (ty : AddressType) (c : ContractAnalysis)
    (o : OnChainBehaviorAnalysis) (w : WalletHistoryAnalysis) (t : TransparencyAnalysis)
    (s : ScamDatabaseAnalysis) :
  let e := generateExplanation score ty c o w t s in
  let sig := filter (fun f => negb (is_sev info f)) (allFlags c o w t s) in
  (1 <= List.length (keyFindings e) <= 5)%nat /\
  (keyFindings e = [NoSignificantFindings] <-> sig = []) /\
  (forall f, In (FlagFinding f) (keyFindings e) -> In f sig) /\
  (forall f, In f sig ->
     In (FlagFinding f) (keyFindings e) \/
     (List.length (keyFindings e) = 5%nat /\
      forall g, In (FlagFinding g) (keyFindings e) -> riskWeight f <= riskWeight g)).
Proof.
  intros e sig.
  assert (Hk : keyFindings e =
               match map FlagFinding (firstn 5 (sort_by_weight sig)) with
               | [] => [NoSignificantFindings] | l => l end) by reflexivity.
  clearbody e. rewrite Hk. clear Hk.
  assert (HinL : forall x, In x (sort_by_weight sig) <-> In x sig).
  { intros x. unfold sort_by_weight. rewrite In_sort_by_weight_acc. simpl. tauto. }
  assert (Hsort : desc_sorted (sort_by_weight sig))
    by (apply sort_by_weight_sorted_acc; exact I).
  assert (Hsplit := firstn_skipn 5 (sort_by_weight sig)).
  assert (HinK : forall x, In x (firstn 5 (sort_by_weight sig)) -> In x sig).
  { intros x Hx. apply HinL. rewrite <- Hsplit. apply in_or_app. left. exact Hx. }
  destruct (sort_by_weight sig) as [|x L'] eqn:EL.
  - assert (Hs : sig = []).
    { destruct sig as [|y sig']; [reflexivity|].
      exfalso. apply (proj2 (HinL y)). left. reflexivity. }
    simpl. split; [lia|]. split; [tauto|]. split.
    + intros f [H | []]. discriminate.
    + intros f Hf. rewrite Hs in Hf. contradiction.
  - set (K := firstn 5 (x :: L')) in *.
    assert (EK : K = x :: firstn 4 L') by reflexivity.
    assert (Hmap : match map FlagFinding K with [] => [NoSignificantFindings] | l => l end =
                   map FlagFinding K) by (rewrite EK; reflexivity).
    rewrite Hmap.
    assert (Hlen : (List.length K <= 5)%nat).
    { rewrite EK. cbn [List.length]. rewrite length_firstn. lia. }
    split; [rewrite length_map; split; [rewrite EK; cbn [List.length]; lia | exact Hlen]|].
    split.
    + split; [rewrite EK; discriminate|].
      intros Hs. exfalso. assert (Hx : In x sig) by (apply HinL; left; reflexivity).
      rewrite Hs in Hx. exact Hx.
    + split.
      * intros f Hf. apply In_map_finding in Hf. exact (HinK f Hf).
      * intros f Hf. apply HinL in Hf. rewrite <- Hsplit in Hf. apply in_app_or in Hf.
        destruct Hf as [Hf | Hf]; [left; apply In_map_finding; exact Hf|].
        right. split.
        -- rewrite length_map. fold K.
           assert (Hl := length_firstn 5 (x :: L')). fold K in Hl.
           assert (Hall := f_equal (@List.length EvidenceFlag) Hsplit).
           rewrite length_app in Hall.
           destruct (skipn 5 (x :: L')) as [|y r] eqn:Es; [contradiction|].
           cbn [List.length] in Hall, Hl. lia.
        -- intros g Hg. apply In_map_finding in Hg.
           rewrite <- Hsplit in Hsort.
           exact (desc_sorted_app _ _ Hsort g f Hg Hf).
Qed.

End ExplanationFacts.

(* ================================================================== *)
(** * Registry service *)

Module RegistryFacts.
Import Registry.

Lemma js_or_nonempty (v : option string) (d : string) : d <> "" -> js_or v d <> "".
Proof.
  intros Hd. unfold js_or. destruct v as [x|]; [|exact Hd].
  destruct (String.eqb x "") eqn:E; [exact Hd|]. apply String.eqb_neq. exact E.
Qed.

(** X13. [scoreToRiskLevel] returns 0, 1 or 2 and never decreases as the
    score grows; its label is always "LOW", "MEDIUM" or "HIGH"; and
    [riskLevelToString] falls back to "UNKNOWN" exactly outside 0..2. *)
Theorem registry_levels (s1 s2 : Z) :
  (0 <= scoreToRiskLevel s1 <= 2) /\
  (s1 <= s2 -> scoreToRiskLevel s1 <= scoreToRiskLevel s2) /\
  In (riskLevelToString (scoreToRiskLevel s1)) ["LOW"; "MEDIUM"; "HIGH"] /\
  (forall l, riskLevelToString l = "UNKNOWN" <-> (l < 0 \/ 2 < l)).
Proof.
  split; [unfold scoreToRiskLevel; destruct (s1 <=? 33), (s1 <=? 66); lia|].
  split.
  - intros H. unfold scoreToRiskLevel.
    destruct (Z.leb_spec s1 33), (Z.leb_spec s1 66), (Z.leb_spec s2 33), (Z.leb_spec s2 66); lia.
  - split.
    + unfold scoreToRiskLevel. destruct (s1 <=? 33); [|destruct (s1 <=? 66)]; simpl; auto.
    + intros l. unfold riskLevelToString. destruct (Z.ltb_spec l 0) as [Hl | Hl].
      * simpl. split; [intros _; left; exact Hl | reflexivity].
      * destruct (Z.le_gt_cases l 2) as [Hu | Hu].
        -- assert (l = 0 \/ l = 1 \/ l = 2) as [-> | [-> | ->]] by lia;
             simpl; split; [discriminate | lia | discriminate | lia | discriminate | lia].
        -- assert (E : nth_error RISK_LEVEL_LABELS (Z.to_nat l) = None)
             by (apply nth_error_None; simpl; lia).
           rewrite E. simpl. split; [intros _; right; exact Hu | reflexivity].
Qed.


End RegistryFacts.

(* ================================================================== *)
(** * Registry submission gate and reasoning of a decision *)

Module DecisionFacts2.
Import Decision DecisionFacts.
Local Open Scope Q_scope.

Lemma clamp100_le_100 (x : Q) : clamp100 x <= 100.
Proof.
  unfold clamp100. apply Q.max_lub; [discriminate | apply Q.le_min_l].
Qed.

Lemma level_block_iff (x t : Q) : level_eqb (getDecisionLevel x t) BLOCK = true <-> 60 <= x.
Proof.
  unfold getDecisionLevel.
  destruct (Qltb x 30) eqn:E1; [|destruct (Qltb x 60) eqn:E2]; simpl.
  - apply Qltb_spec in E1. split; [discriminate | intros H; lra].
  - apply Qltb_spec in E2. split; [discriminate | intros H; lra].
  - apply Qltb_false in E2. split; [intros _; exact E2 | reflexivity].
Qed.

(** X15. [shouldSubmitToRegistry], applied to a decision of
    [decideOnRisk] with the same threshold, holds exactly when the
    clamped score is at least 60 (a BLOCK) and at least the threshold as
    given (not clamped); so a threshold above 100 never submits, while a
    negative threshold submits every BLOCK. *)
Theorem shouldSubmit_decide (now : Z) (s t : Q) :
  (shouldSubmitToRegistry (decideOnRisk now s t) t = true <->
     60 <= clamp100 s /\ t <= clamp100 s) /\
  (100 < t -> shouldSubmitToRegistry (decideOnRisk now s t) t = false) /\
  (t < 0 -> shouldSubmitToRegistry (decideOnRisk now s t) t =
            level_eqb (level (decideOnRisk now s t)) BLOCK).
Proof.
  unfold shouldSubmitToRegistry, decideOnRisk; cbn [level riskScore].
  split; [|split].
  - rewrite andb_true_iff, level_block_iff, Qle_bool_iff. tauto.
  - intros Ht. destruct (level_eqb _ BLOCK); [|reflexivity]. simpl.
    destruct (Qle_bool t (clamp100 s)) eqn:E; [|reflexivity].
    apply Qle_bool_iff in E. pose proof (clamp100_le_100 s). lra.
  - intros Ht. destruct (level_eqb _ BLOCK); [|reflexivity]. simpl.
    apply Qle_bool_iff. unfold clamp100.
    apply Qle_trans with 0; [lra | apply Q.le_max_l].
Qed.

(** X16. The reasoning of [decideOnRisk]: the "exceeds threshold" text
    appears exactly for a BLOCK decision whose clamped score reaches the
    clamped threshold, the "elevated activity" text exactly for a WARN
    decision, and every other decision, a BLOCK below its threshold
    included, reads "within acceptable range". *)
Theorem decide_reasoning (now : Z) (s t : Q) :
  let d := decideOnRisk now s t in
  ((exists a b, reasoning d = ExceedsThreshold a b) <->
     level d = BLOCK /\ clamp100 t <= clamp100 s) /\
  ((exists a, reasoning d = ElevatedActivity a) <-> level d = WARN) /\
  (level d = ALLOW \/ (level d = BLOCK /\ clamp100 s < clamp100 t) ->
     reasoning d = AcceptableRange (clamp100 s)).
Proof.
  cbv zeta. unfold decideOnRisk; cbn [level reasoning].
  generalize (clamp100 s) (clamp100 t). intros x y.
  unfold generateReasoning, getDecisionLevel.
  destruct (Qltb x 30) eqn:E1; [|destruct (Qltb x 60) eqn:E2]; simpl.
  - apply Qltb_spec in E1.
    rewrite andb_false_r. destruct (Qle_bool 30 x) eqn:E3.
    + apply Qle_bool_iff in E3. lra.
    + simpl. repeat split; intros;
        repeat match goal with
               | H : exists _, _ |- _ => destruct H
               | H : _ /\ _ |- _ => destruct H
               | H : _ \/ _ |- _ => destruct H
               end; first [discriminate | reflexivity].
  - apply Qltb_false in E1. apply Qltb_spec in E2.
    rewrite andb_false_r. simpl.
    assert (E3 : Qle_bool 30 x = true) by (apply Qle_bool_iff; exact E1).
    rewrite E3. simpl. repeat split; intros;
      repeat match goal with
             | H : exists _, _ |- _ => destruct H
             | H : _ /\ _ |- _ => destruct H
             | H : _ \/ _ |- _ => destruct H
             end; first [discriminate | solve [eauto]].
  - apply Qltb_false in E2. rewrite andb_true_r.
    destruct (Qle_bool y x) eqn:E3.
    + apply Qle_bool_iff in E3. repeat split; intros;
        repeat match goal with
               | H : exists _, _ |- _ => destruct H
               | H : _ /\ _ |- _ => destruct H
               | H : _ \/ _ |- _ => destruct H
               end; first [discriminate | solve [eauto] | exfalso; lra].
    + assert (E4 : ~ y <= x) by (intros H; apply Qle_bool_iff in H; congruence).
      rewrite andb_false_r. repeat split; intros;
        repeat match goal with
               | H : exists _, _ |- _ => destruct H
               | H : _ /\ _ |- _ => destruct H
               | H : _ \/ _ |- _ => destruct H
               end; first [discriminate | reflexivity | contradiction].
Qed.

End DecisionFacts2.

(* ================================================================== *)
(** * Guardian counters and status *)

Module GuardianFacts2.
Import Decision Guardian Status GuardianStatus.
Local Open Scope Q_scope.

(** The counter identity kept by every [checkAddress]. *)
Definition CounterInv (st : GuardianState) : Prop :=
  checksTotal st = (errorsTotal st + blockedCount st + allowedCount st)%nat.

Lemma checkAddress_step (cfg : GuardianConfig) (now : Z)
    (analysis : Exc Engine.RiskIntelligenceResult) (escalation : Exc unit) (st : GuardianState) :
  exists st' resp, checkAddress cfg now analysis escalation st = Ok (st', resp) /\
    checksTotal st' = S (checksTotal st) /\ lastCheck st' = Some now /\
    (analysis = Throw ->
       resp = failSafeResponse /\ errorsTotal st' = S (errorsTotal st) /\
       blockedCount st' = blockedCount st /\ allowedCount st' = allowedCount st) /\
    (forall r, analysis = Ok r ->
       errorsTotal st' = errorsTotal st /\
       ((r_allowed resp = true /\ allowedCount st' = S (allowedCount st) /\
           blockedCount st' = blockedCount st) \/
        (r_allowed resp = false /\ blockedCount st' = S (blockedCount st) /\
           allowedCount st' = allowedCount st))).
Proof.
  unfold checkAddress. destruct analysis as [r|]; cbv zeta; unfold exc_bind at 1; cbv beta iota.
  - assert (Hesc : exists u, (if 70 <=? Engine.risk_score r
                              then try_catch escalation (Ok tt) else Ok tt) = Ok u)
      by (destruct (70 <=? Engine.risk_score r); [destruct escalation|];
          eexists; reflexivity).
    destruct Hesc as [u Hu].
    generalize (decideOnRisk now (inject_Z (Engine.risk_score r)) (g_threshold cfg)).
    intros d. simpl. rewrite Hu. simpl.
    destruct (allowed d) eqn:Ea; simpl; do 2 eexists; split; try reflexivity;
      (split; [reflexivity|]); (split; [reflexivity|]);
      (split; [discriminate|]); intros r' _; (split; [reflexivity|]).
    + left. unfold formatResponse. simpl. rewrite Ea. auto.
    + right. unfold formatResponse. simpl. rewrite Ea. auto.
  - do 2 eexists. split; [reflexivity|]. simpl.
    repeat split; intros; discriminate.
Qed.

(** X17. One [checkAddress] call always returns a response and never
    throws; it counts the check and records its time; an analysis that
    throws counts one error and returns the fail-safe response; otherwise
    exactly one of the allowed and blocked counters grows, by the decision,
    whatever the escalation does; and the identity
    checks = errors + blocked + allowed is kept. *)
Theorem checkAddress_counters (cfg : GuardianConfig) (now : Z)
    (analysis : Exc Engine.RiskIntelligenceResult) (escalation : Exc unit) (st : GuardianState) :
  exists st' resp, checkAddress cfg now analysis escalation st = Ok (st', resp) /\
    checksTotal st' = S (checksTotal st) /\ lastCheck st' = Some now /\
    (analysis = Throw ->
       resp = failSafeResponse /\ errorsTotal st' = S (errorsTotal st) /\
       blockedCount st' = blockedCount st /\ allowedCount st' = allowedCount st) /\
    (forall r, analysis = Ok r ->
       errorsTotal st' = errorsTotal st /\
       ((r_allowed resp = true /\ allowedCount st' = S (allowedCount st) /\
           blockedCount st' = blockedCount st) \/
        (r_allowed resp = false /\ blockedCount st' = S (blockedCount st) /\
           allowedCount st' = allowedCount st))) /\
    (CounterInv st -> CounterInv st').
Proof.
  destruct (checkAddress_step cfg now analysis escalation st)
    as (st' & resp & E & Hc & Hl & Ht & Hok).
  exists st', resp. do 4 (split; [assumption|]). split; [assumption|].
  unfold CounterInv. intros Hinv. destruct analysis as [r|].
  - destruct (Hok r eq_refl) as [He [(_ & Ha & Hb) | (_ & Hb & Ha)]]; lia.
  - destruct (Ht eq_refl) as (_ & He & Hb & Ha). lia.
Qed.

Lemma runChecks_props (cfg : GuardianConfig)
    (inputs : list (Z * Exc Engine.RiskIntelligenceResult * Exc unit)) (st : GuardianState) :
  CounterInv st ->
  CounterInv (runChecks cfg inputs st) /\
  checksTotal (runChecks cfg inputs st) = (List.length inputs + checksTotal st)%nat.
Proof.
  revert st. induction inputs as [| [[now analysis] escalation] rest IH]; intros st Hinv.
  - simpl. auto.
  - simpl. destruct (checkAddress_step cfg now analysis escalation st)
      as (st' & resp & E & Hc & _ & Ht & Hok).
    rewrite E.
    assert (Hinv' : CounterInv st').
    { unfold CounterInv in *. destruct analysis as [r|].
      - destruct (Hok r eq_refl) as [He [(_ & Ha & Hb) | (_ & Hb & Ha)]]; lia.
      - destruct (Ht eq_refl) as (_ & He & Hb & Ha). lia. }
    destruct (IH st' Hinv') as [H1 H2]. split; [exact H1|]. lia.
Qed.

Lemma toFixed2_bounds (x : Q) : 0 <= x <= 100 -> 0 <= toFixed2 x <= 100.
Proof.
  intros [H0 H1]. unfold toFixed2.
  assert (L : (0 <= Qfloor (x * 100 + (1 # 2)))%Z).
  { change 0%Z with (Qfloor 0). apply Qfloor_resp_le. lra. }
  assert (U : (Qfloor (x * 100 + (1 # 2)) <= 10000)%Z).
  { change 10000%Z with (Qfloor (10000 + (1 # 2))). apply Qfloor_resp_le. lra. }
  rewrite Zle_Qle in L, U. unfold Qdiv. change (Qinv 100) with (1 # 100).
  change (inject_Z 0) with 0 in L. change (inject_Z 10000) with 10000 in U.
  lra.
Qed.

Lemma nat_Q_nonneg (n : nat) : 0 <= inject_Z (Z.of_nat n).
Proof. change 0 with (inject_Z 0). rewrite <- Zle_Qle. lia. Qed.

Lemma rate_bounds (c e : nat) :
  (e <= c)%nat -> (0 < c)%nat ->
  0 <= (inject_Z (Z.of_nat c) - inject_Z (Z.of_nat e)) / inject_Z (Z.of_nat c) * 100 <= 100.
Proof.
  intros Hle Hpos.
  assert (Hc : 0 < inject_Z (Z.of_nat c)).
  { change 0 with (inject_Z 0). rewrite <- Zlt_Qlt. lia. }
  assert (Hec : inject_Z (Z.of_nat e) <= inject_Z (Z.of_nat c)).
  { rewrite <- Zle_Qle. lia. }
  pose proof (nat_Q_nonneg e) as He.
  assert (A : 0 <= (inject_Z (Z.of_nat c) - inject_Z (Z.of_nat e)) / inject_Z (Z.of_nat c)).
  { apply Qle_shift_div_l; [exact Hc | lra]. }
  assert (B : (inject_Z (Z.of_nat c) - inject_Z (Z.of_nat e)) / inject_Z (Z.of_nat c) <= 1).
  { apply Qle_shift_div_r; [exact Hc | lra]. }
  lra.
Qed.

(** X18. After any sequence of [checkAddress] calls on a new guardian,
    the number of checks is the number of calls and equals
    errors + blocked + allowed; [getStatus] then reports a success rate
    between 0 and 100 (100 when no check failed, 0 before any check),
    the blocked count as its alerts and no chain submissions. *)
Theorem guardian_status_after_checks (cfg : GuardianConfig)
    (inputs : list (Z * Exc Engine.RiskIntelligenceResult * Exc unit)) :
  let st := runChecks cfg inputs initialGuardian in
  checksTotal st = List.length inputs /\ CounterInv st /\
  0 <= st_successRate (getStatus st) <= 100 /\
  (errorsTotal st = 0%nat -> inputs <> [] -> st_successRate (getStatus st) == 100) /\
  (inputs = [] -> st_successRate (getStatus st) == 0) /\
  st_alertsGenerated (getStatus st) = blockedCount st /\
  st_submissionsToChain (getStatus st) = 0%nat.
Proof.
  intros st.
  destruct (runChecks_props cfg inputs initialGuardian eq_refl) as [Hinv Hlen].
  fold st in Hinv, Hlen. rewrite Nat.add_0_r in Hlen.
  split; [exact Hlen|]. split; [exact Hinv|].
  unfold getStatus; cbn [st_successRate st_alertsGenerated st_submissionsToChain].
  split; [|split; [|split; [|split; reflexivity]]].
  - apply toFixed2_bounds. destruct (Nat.ltb_spec 0 (checksTotal st)).
    + apply rate_bounds; [unfold CounterInv in Hinv; lia | assumption].
    + lra.
  - intros He Hne. destruct (Nat.ltb_spec 0 (checksTotal st)) as [Hp | Hp].
    + rewrite He. change (inject_Z (Z.of_nat 0)) with 0.
      assert (Hc : ~ inject_Z (Z.of_nat (checksTotal st)) == 0).
      { change 0 with (inject_Z 0). rewrite inject_Z_injective. lia. }
      unfold toFixed2.
      rewrite (Qfloor_comp _ (100 * 100 + (1 # 2))); [reflexivity|].
      field. exact Hc.
    + destruct inputs; [congruence | simpl in Hlen; lia].
  - intros ->. reflexivity.
Qed.

End GuardianFacts2.

(* ================================================================== *)
(** * Sentinel: registry calls, counters, watch-list edits, eviction *)

Module SentinelFacts2.
Import Decision Sentinel SentinelFacts Status SentinelStatus.

(** States reachable from a new Sentinel. *)
Definition reachable (cfg : SentinelConfig) (st : SentinelState) : Prop :=
  exists ops, st = run cfg ops initial.

Lemma clamp100_ge60 (x : Q) : (60 <= clamp100 x -> clamp100 x <= x /\ clamp100 x <= 100)%Q.
Proof.
  unfold clamp100. intros H.
  destruct (Q.max_spec 0 (Qmin 100 x)) as [[H1 H2] | [H1 H2]];
  destruct (Q.min_spec 100 x) as [[H3 H4] | [H3 H4]]; lra.
Qed.

Lemma shouldSubmit_bounds (n s th : Z) :
  shouldSubmitToRegistry (decideOnRisk n (inject_Z s) (inject_Z th)) (inject_Z th) = true ->
  60 <= s /\ th <= s /\ th <= 100.
Proof.
  unfold shouldSubmitToRegistry, decideOnRisk; cbn [level riskScore].
  rewrite andb_true_iff, DecisionFacts2.level_block_iff, Qle_bool_iff.
  intros [H60 Hth]. destruct (clamp100_ge60 _ H60) as [Hs H100].
  assert (A : (inject_Z 60 <= inject_Z s)%Q) by (change (inject_Z 60) with 60%Q; lra).
  assert (B : (inject_Z th <= inject_Z s)%Q) by lra.
  assert (C : (inject_Z th <= inject_Z 100)%Q) by (change (inject_Z 100) with 100%Q; lra).
  rewrite <- Zle_Qle in A, B, C. lia.
Qed.

(** The bookkeeping invariant of the Sentinel. *)
Definition BookInv (cfg : SentinelConfig) (st : SentinelState) : Prop :=
  (forall a s r, In (a, s, r) (ledgerCalls st) -> 60 <= s /\ threshold cfg <= s) /\
  submissionsToChain st = List.length (submittedAlerts st) /\
  List.length (submittedAlerts st) = List.length (filter confirmed (ledgerCalls st)) /\
  (successfulRuns st <= runsTotal st)%nat.

Lemma processAddress_book (cfg : SentinelConfig) (env : CycleEnv) (st : SentinelState)
    (b : string) :
  let st' := processAddress cfg env st b in
  runsTotal st' = runsTotal st /\ successfulRuns st' = successfulRuns st /\
  ((submissionsToChain st' = submissionsToChain st /\
    submittedAlerts st' = submittedAlerts st /\ ledgerCalls st' = ledgerCalls st) \/
   (exists s r,
      shouldSubmitToRegistry (decideOnRisk (now env) (inject_Z s) (inject_Z (threshold cfg)))
        (inject_Z (threshold cfg)) = true /\
      ledgerCalls st' = ledgerCalls st ++ [(b, s, r)] /\
      (if confirmed (b, s, r)
       then submissionsToChain st' = S (submissionsToChain st) /\
            submittedAlerts st' = submittedAlerts st ++ [(b, s)]
       else submissionsToChain st' = submissionsToChain st /\
            submittedAlerts st' = submittedAlerts st))).
Proof.
  unfold processAddress.
  destruct (analysis env b) as [s|] eqn:Ea;
    [|split; [reflexivity|]; split; [reflexivity|]; left; repeat split].
  cbv zeta.
  destruct (shouldSubmitToRegistry (decideOnRisk (now env) (inject_Z s) (inject_Z (threshold cfg)))
              (inject_Z (threshold cfg))) eqn:Hs;
    [|split; [reflexivity|]; split; [reflexivity|]; left; repeat split].
  destruct (key_mem (b, s) (submittedAlerts st)) eqn:Hk;
    [split; [reflexivity|]; split; [reflexivity|]; left; repeat split|].
  unfold confirmed; simpl.
  destruct (success (submitToRegistry env b s) && is_some (sr_txHash (submitToRegistry env b s)))
    eqn:Ec; simpl; (split; [reflexivity|]); (split; [reflexivity|]); right;
    exists s, (submitToRegistry env b s); (split; [exact Hs|]); (split; [reflexivity|]);
    rewrite Ec; split; reflexivity.
Qed.

Lemma processAddress_BookInv (cfg : SentinelConfig) (env : CycleEnv) (st : SentinelState)
    (b : string) :
  BookInv cfg st -> BookInv cfg (processAddress cfg env st b).
Proof.
  intros (Hl & Hs & Hc & Hr).
  destruct (processAddress_book cfg env st b) as (Er & Es & [(E1 & E2 & E3) | (s & r & Hsub & E3 & Hconf)]).
  - unfold BookInv. rewrite Er, Es, E1, E2, E3. auto.
  - destruct (shouldSubmit_bounds _ _ _ Hsub) as (H60 & Hth & _).
    unfold BookInv. rewrite Er, Es, E3. split; [|split; [|split]].
    + intros a s' r' Hin. apply in_app_or in Hin as [Hin | [Hin | []]]; [eauto|].
      injection Hin as <- <- <-. auto.
    + destruct (confirmed (b, s, r)); destruct Hconf as [-> ->];
        rewrite ?length_app; simpl; lia.
    + rewrite filter_app, length_app. simpl.
      destruct (confirmed (b, s, r)); destruct Hconf as [_ ->];
        rewrite ?length_app; simpl; lia.
    + exact Hr.
Qed.

Lemma fold_processAddress_runs (cfg : SentinelConfig) (env : CycleEnv) (addrs : list string)
    (st : SentinelState) :
  runsTotal (fold_left (processAddress cfg env) addrs st) = runsTotal st /\
  successfulRuns (fold_left (processAddress cfg env) addrs st) = successfulRuns st.
Proof.
  revert st. induction addrs as [|b addrs IH]; intros st; simpl; [auto|].
  destruct (IH (processAddress cfg env st b)) as [E1 E2].
  destruct (processAddress_book cfg env st b) as (F1 & F2 & _).
  rewrite E1, E2, F1, F2. auto.
Qed.

Lemma fold_processAddress_BookInv (cfg : SentinelConfig) (env : CycleEnv)
    (addrs : list string) (st : SentinelState) :
  BookInv cfg st -> BookInv cfg (fold_left (processAddress cfg env) addrs st).
Proof.
  revert st. induction addrs as [|b addrs IH]; intros st H; simpl; [exact H|].
  apply IH. apply processAddress_BookInv. exact H.
Qed.

Lemma step_BookInv (cfg : SentinelConfig) (st : SentinelState) (op : Op) :
  BookInv cfg st -> BookInv cfg (step cfg st op).
Proof.
  intros H. destruct op as [env | t a | a]; simpl.
  - unfold runMonitoringCycle. cbv zeta.
    assert (H0 : BookInv cfg (mkSentinel (alerts st) (submittedAlerts st) (S (runsTotal st))
                   (errorsTotal st) (successfulRuns st) (submissionsToChain st)
                   (Some (now env)) (ledgerCalls st))).
    { destruct H as (Hl & Hs & Hc & Hr). unfold BookInv; simpl.
      split; [exact Hl|]. split; [exact Hs|]. split; [exact Hc|]. lia. }
    destruct (Nat.eqb _ 0); [exact H0|].
    match goal with |- context [fold_left (processAddress cfg env) ?l ?s0] =>
      assert (H1 : BookInv cfg (fold_left (processAddress cfg env) l s0)) end.
    { apply fold_processAddress_BookInv. exact H0. }
    destruct H1 as (Hl & Hs & Hc & Hr). unfold BookInv; simpl.
    split; [exact Hl|]. split; [exact Hs|]. split; [exact Hc|].
    destruct (fold_processAddress_runs cfg env (map_keys (alerts st)) (mkSentinel (alerts st)
        (submittedAlerts st) (S (runsTotal st)) (errorsTotal st) (successfulRuns st)
        (submissionsToChain st) (Some (now env)) (ledgerCalls st))) as [Er Es].
    simpl in Er, Es. rewrite Er, Es. destruct H as (_ & _ & _ & Hr0). lia.
  - unfold addWatchAddress. destruct (negb _); [|exact H].
    destruct H as (? & ? & ? & ?). unfold BookInv; simpl. auto.
  - unfold removeWatchAddress. simpl. destruct (map_has a (alerts st)); [|exact H].
    destruct H as (? & ? & ? & ?). unfold BookInv; simpl. auto.
Qed.

Lemma reachable_BookInv (cfg : SentinelConfig) (st : SentinelState) :
  reachable cfg st -> BookInv cfg st.
Proof.
  intros [ops ->]. unfold run.
  assert (H0 : BookInv cfg initial)
    by (unfold BookInv; simpl; split; [intros a s r []|]; repeat split; auto).
  revert H0. generalize initial. induction ops as [|op ops IH]; intros s0 H; simpl; [exact H|].
  apply IH. apply step_BookInv. exact H.
Qed.

(** X19. Every registry call a Sentinel makes, whatever its history, is
    for a score of at least 60 and at least the configured threshold, so
    the on-chain level [scoreToRiskLevel] of every report it submits is
    MEDIUM or HIGH, never LOW. *)
Theorem sentinel_ledger_scores (cfg : SentinelConfig) (ops : list Op) :
  Forall (fun c : string * Z * SubmitResult =>
            60 <= snd (fst c) /\ threshold cfg <= snd (fst c) /\
            Registry.scoreToRiskLevel (snd (fst c)) <> 0)
    (ledgerCalls (run cfg ops initial)).
Proof.
  destruct (reachable_BookInv cfg _ (ex_intro _ ops eq_refl)) as (Hl & _).
  apply Forall_forall. intros [[a s] r] Hin. simpl.
  destruct (Hl a s r Hin) as [H60 Hth].
  split; [exact H60|]. split; [exact Hth|].
  unfold Registry.scoreToRiskLevel.
  destruct (Z.leb_spec s 33); [lia|]. destruct (s <=? 66); discriminate.
Qed.

(** X20. Whatever its history, a Sentinel's chain-submission counter
    equals the size of its dedup set, which equals the number of
    confirmed registry calls; it has completed no more runs than it
    started; and [getStatus] reports a success rate between 0 and 100,
    the cache size as its alerts and that same submission count. *)
Theorem sentinel_status_counters (cfg : SentinelConfig) (ops : list Op) :
  let st := run cfg ops initial in
  submissionsToChain st = List.length (submittedAlerts st) /\
  List.length (submittedAlerts st) = List.length (filter confirmed (ledgerCalls st)) /\
  (successfulRuns st <= runsTotal st)%nat /\
  (0 <= st_successRate (getStatus st) <= 100)%Q /\
  st_alertsGenerated (getStatus st) = List.length (alerts st) /\
  st_submissionsToChain (getStatus st) = List.length (filter confirmed (ledgerCalls st)).
Proof.
  intros st.
  destruct (reachable_BookInv cfg st (ex_intro _ ops eq_refl)) as (_ & Hs & Hc & Hr).
  split; [exact Hs|]. split; [exact Hc|]. split; [exact Hr|].
  unfold getStatus; cbn [st_successRate st_alertsGenerated st_submissionsToChain].
  split; [|split; [reflexivity | rewrite Hs; exact Hc]].
  apply GuardianFacts2.toFixed2_bounds.
  destruct (Nat.ltb_spec 0 (runsTotal st)) as [Hp | Hp]; [|lra].
  assert (Hq : (0 < inject_Z (Z.of_nat (runsTotal st)))%Q).
  { change 0%Q with (inject_Z 0). rewrite <- Zlt_Qlt. lia. }
  assert (Hle : (inject_Z (Z.of_nat (successfulRuns st)) <= inject_Z (Z.of_nat (runsTotal st)))%Q).
  { rewrite <- Zle_Qle. lia. }
  pose proof (GuardianFacts2.nat_Q_nonneg (successfulRuns st)) as H0.
  assert (A : (0 <= inject_Z (Z.of_nat (successfulRuns st)) / inject_Z (Z.of_nat (runsTotal st)))%Q).
  { apply Qle_shift_div_l; [exact Hq | lra]. }
  assert (B : (inject_Z (Z.of_nat (successfulRuns st)) / inject_Z (Z.of_nat (runsTotal st)) <= 1)%Q).
  { apply Qle_shift_div_r; [exact Hq | lra]. }
  lra.
Qed.

End SentinelFacts2.

(* ================================================================== *)
(** * Sentinel: keys of the alert cache, removal and eviction *)

Module SentinelFacts3.
Import Decision Sentinel SentinelFacts.

Lemma In_keys_set (x k : string) (v : RiskAlert) (m : AlertMap) :
  In x (map_keys (map_set k v m)) -> x = k \/ In x (map_keys m).
Proof.
  induction m as [|[k' v'] m IH]; simpl; [intuition|].
  destruct (String.eqb k k') eqn:E; simpl.
  - apply String.eqb_eq in E. subst. tauto.
  - intros [H | H]; [tauto|]. destruct (IH H); tauto.
Qed.

Lemma NoDup_set (k : string) (v : RiskAlert) (m : AlertMap) :
  NoDup (map_keys m) -> NoDup (map_keys (map_set k v m)).
Proof.
  induction m as [|[k' v'] m IH]; simpl; intros H.
  - constructor; [intros []| constructor].
  - inversion H as [|? ? Hn Hd]; subst.
    destruct (String.eqb k k') eqn:E; simpl.
    + apply String.eqb_eq in E. subst. constructor; assumption.
    + constructor; [|apply IH; exact Hd].
      intros Hin. apply In_keys_set in Hin as [Hin | Hin]; [|contradiction].
      subst. rewrite String.eqb_refl in E. discriminate.
Qed.

Lemma In_keys_delete (x k : string) (m : AlertMap) :
  In x (map_keys (map_delete k m)) -> In x (map_keys m).
Proof.
  induction m as [|[k' v'] m IH]; simpl; [tauto|].
  destruct (String.eqb k k'); simpl; [tauto|]. intros [H | H]; [tauto | right; auto].
Qed.

Lemma NoDup_delete (k : string) (m : AlertMap) :
  NoDup (map_keys m) -> NoDup (map_keys (map_delete k m)).
Proof.
  induction m as [|[k' v'] m IH]; simpl; intros H; [exact H|].
  inversion H as [|? ? Hn Hd]; subst.
  destruct (String.eqb k k'); [exact Hd|]. simpl.
  constructor; [|apply IH; exact Hd].
  intros Hin. apply Hn. apply In_keys_delete with k. exact Hin.
Qed.

Lemma NoDup_updateAlert (cfg : SentinelConfig) (t : Z) (address : string) (score : Z)
    (lvl : DecisionLevel) (rsn : Reasoning) (m : AlertMap) :
  NoDup (map_keys m) -> NoDup (map_keys (updateAlert cfg t address score lvl rsn m)).
Proof.
  intros H. unfold updateAlert. cbv zeta.
  match goal with |- context [map_set address ?v m] => set (m1 := map_set address v m) end.
  assert (H1 : NoDup (map_keys m1)) by (apply NoDup_set; exact H).
  clearbody m1.
  destruct (maxAlerts cfg <? _); [|exact H1].
  destruct (sort_by_ts m1); [exact H1 | apply NoDup_delete; exact H1].
Qed.

Lemma NoDup_markSubmitted (address : string) (r : SubmitResult) (m : AlertMap) :
  NoDup (map_keys m) -> NoDup (map_keys (markSubmitted address r m)).
Proof.
  intros H. unfold markSubmitted. destruct (map_get address m); [apply NoDup_set|]; exact H.
Qed.

Lemma NoDup_processAddress (cfg : SentinelConfig) (env : CycleEnv) (st : SentinelState)
    (b : string) :
  NoDup (map_keys (alerts st)) -> NoDup (map_keys (alerts (processAddress cfg env st b))).
Proof.
  intros H. unfold processAddress.
  destruct (analysis env b) as [s|]; [|exact H]. cbv zeta. simpl.
  apply NoDup_updateAlert.
  destruct (shouldSubmitToRegistry _ _); [|exact H].
  destruct (negb _); [|exact H].
  destruct (success _ && is_some _); simpl; [apply NoDup_markSubmitted|]; exact H.
Qed.

Lemma NoDup_fold (cfg : SentinelConfig) (env : CycleEnv) (addrs : list string)
    (st : SentinelState) :
  NoDup (map_keys (alerts st)) ->
  NoDup (map_keys (alerts (fold_left (processAddress cfg env) addrs st))).
Proof.
  revert st. induction addrs as [|b addrs IH]; intros st H; simpl; [exact H|].
  apply IH. apply NoDup_processAddress. exact H.
Qed.

Lemma NoDup_step (cfg : SentinelConfig) (st : SentinelState) (op : Op) :
  NoDup (map_keys (alerts st)) -> NoDup (map_keys (alerts (step cfg st op))).
Proof.
  intros H. destruct op as [env | t a | a]; simpl.
  - unfold runMonitoringCycle. cbv zeta.
    destruct (Nat.eqb _ 0); [exact H|]. simpl.
    apply NoDup_fold. exact H.
  - unfold addWatchAddress. destruct (negb _); [apply NoDup_set|]; exact H.
  - unfold removeWatchAddress. simpl. destruct (map_has a (alerts st)); [apply NoDup_delete|];
      exact H.
Qed.

Lemma NoDup_run (cfg : SentinelConfig) (ops : list Op) :
  NoDup (map_keys (alerts (run cfg ops initial))).
Proof.
  unfold run. assert (H : NoDup (map_keys (alerts initial))) by constructor.
  revert H. generalize initial.
  induction ops as [|op ops IH]; intros s0 H; simpl; [exact H|].
  apply IH. apply NoDup_step. exact H.
Qed.

Lemma map_get_not_in (k : string) (m : AlertMap) :
  ~ In k (map_keys m) -> map_get k m = None.
Proof.
  induction m as [|[k' v'] m IH]; simpl; intros H; [reflexivity|].
  destruct (String.eqb k k') eqn:E.
  - apply String.eqb_eq in E. subst. tauto.
  - apply IH. tauto.
Qed.

Lemma map_get_delete_same (k : string) (m : AlertMap) :
  NoDup (map_keys m) -> map_get k (map_delete k m) = None.
Proof.
  induction m as [|[k' v'] m IH]; simpl; intros H; [reflexivity|].
  inversion H as [|? ? Hn Hd]; subst.
  destruct (String.eqb k k') eqn:E.
  - apply String.eqb_eq in E. subst. apply map_get_not_in. exact Hn.
  - simpl. rewrite E. apply IH. exact Hd.
Qed.

Lemma map_get_delete_other (a k : string) (m : AlertMap) :
  k <> a -> map_get k (map_delete a m) = map_get k m.
Proof.
  intros Hka. induction m as [|[k' v'] m IH]; simpl; [reflexivity|].
  destruct (String.eqb a k') eqn:E.
  - apply String.eqb_eq in E. subst.
    destruct (String.eqb k k') eqn:F; [apply String.eqb_eq in F; contradiction | reflexivity].
  - simpl. rewrite IH. reflexivity.
Qed.

(** X21. On a Sentinel with any history, [removeWatchAddress a] reports
    whether [a] was watched; afterwards [a] is no longer watched, every
    other alert is unchanged and the cache keys stay distinct; the dedup
    set and the registry log are kept, so a pair already submitted for
    [a] is not submitted again if [a] is watched anew. *)
Theorem removeWatch_effect (cfg : SentinelConfig) (ops : list Op) (a : string) :
  let st := run cfg ops initial in
  let st' := fst (removeWatchAddress a st) in
  snd (removeWatchAddress a st) = map_has a (alerts st) /\
  map_has a (alerts st') = false /\
  (forall k, k <> a -> map_get k (alerts st') = map_get k (alerts st)) /\
  NoDup (map_keys (alerts st')) /\
  submittedAlerts st' = submittedAlerts st /\ ledgerCalls st' = ledgerCalls st.
Proof.
  intros st st'. pose proof (NoDup_run cfg ops) as Hnd. fold st in Hnd.
  unfold st', removeWatchAddress. simpl.
  destruct (map_has a (alerts st)) eqn:Eh; simpl.
  - split; [reflexivity|]. split; [unfold map_has; rewrite map_get_delete_same; auto|].
    split; [intros k Hk; apply map_get_delete_other; exact Hk|].
    split; [apply NoDup_delete; exact Hnd|]. auto.
  - repeat split; auto.
Qed.

Lemma map_delete_snoc (k : string) (v : RiskAlert) (m : AlertMap) :
  map_get k m = None -> map_delete k (m ++ [(k, v)]) = m.
Proof.
  induction m as [|[k' v'] m IH]; simpl; intros H.
  - rewrite String.eqb_refl. reflexivity.
  - destruct (String.eqb k k'); [discriminate|]. rewrite (IH H). reflexivity.
Qed.

Lemma map_get_snoc_same (k : string) (v : RiskAlert) (m : AlertMap) :
  map_get k m = None -> map_get k (m ++ [(k, v)]) = Some v.
Proof.
  induction m as [|[k' v'] m IH]; simpl; intros H.
  - rewrite String.eqb_refl. reflexivity.
  - destruct (String.eqb k k'); [discriminate|]. exact (IH H).
Qed.



(** The head of a list of alerts carries its smallest timestamp. *)
Definition HeadMin (l : AlertMap) : Prop :=
  match l with
  | [] => True
  | h :: _ => forall y, In y l -> a_timestamp (snd h) <= a_timestamp (snd y)
  end.

Lemma insert_by_ts_HeadMin (x : string * RiskAlert) (l : AlertMap) :
  HeadMin l -> HeadMin (insert_by_ts x l).
Proof.
  destruct l as [|y l']; simpl; intros H.
  - intros z [<- | []]. lia.
  - destruct (Z.leb_spec (a_timestamp (snd y)) (a_timestamp (snd x))) as [Hle | Hgt]; simpl.
    + intros z [<- | Hz]; [lia|]. apply In_insert_by_ts in Hz as [<- | Hz]; [exact Hle|].
      apply H. right. exact Hz.
    + intros z [<- | [<- | Hz]]; [lia | lia|].
      specialize (H z (or_intror Hz)). lia.
Qed.

Lemma sort_HeadMin (m acc : AlertMap) :
  HeadMin acc -> HeadMin (fold_left (fun acc x => insert_by_ts x acc) m acc).
Proof.
  revert acc. induction m as [|x m IH]; intros acc H; simpl; [exact H|].
  apply IH. apply insert_by_ts_HeadMin. exact H.
Qed.

Lemma sort_by_ts_head (m : AlertMap) (h : string * RiskAlert) (rest : AlertMap) :
  sort_by_ts m = h :: rest ->
  In h m /\ forall y, In y m -> a_timestamp (snd h) <= a_timestamp (snd y).
Proof.
  intros Es.
  assert (Hm : HeadMin (sort_by_ts m)) by (apply sort_HeadMin; exact I).
  rewrite Es in Hm. unfold HeadMin in Hm. split.
  - assert (H : In h (sort_by_ts m)) by (rewrite Es; left; reflexivity).
    unfold sort_by_ts in H. apply In_sort_acc in H as [H | []]. exact H.
  - intros y Hy. apply Hm. rewrite <- Es. unfold sort_by_ts. apply In_sort_acc. left. exact Hy.
Qed.

(** X23. [updateAlert] writes an alert with the new score, level,
    reasoning and time, which keeps the identifier and the chain-submission
    fields of the alert it replaces (a new alert starts unsubmitted); if
    the cache then holds more than [maxAlerts] entries, exactly one entry
    is deleted, and it is one with the oldest timestamp of the cache. *)
Theorem updateAlert_evicts_oldest (cfg : SentinelConfig) (t : Z) (address : string)
    (score : Z) (lvl : DecisionLevel) (rsn : Reasoning) (m : AlertMap) :
  exists v,
    a_riskScore v = score /\ a_level v = lvl /\ a_timestamp v = t /\
    reason v = DecisionReasoning rsn /\
    (forall old, map_get address m = Some old ->
       alert_id v = alert_id old /\ submittedToChain v = submittedToChain old /\
       txHash v = txHash old /\ reportHash v = reportHash old) /\
    (map_get address m = None -> submittedToChain v = false /\ alert_id v = (address, t)) /\
    ((Z.of_nat (List.length (map_set address v m)) <= maxAlerts cfg /\
      updateAlert cfg t address score lvl rsn m = map_set address v m) \/
     (maxAlerts cfg < Z.of_nat (List.length (map_set address v m)) /\
      exists k w, In (k, w) (map_set address v m) /\
        (forall y, In y (map_set address v m) -> a_timestamp w <= a_timestamp (snd y)) /\
        updateAlert cfg t address score lvl rsn m = map_delete k (map_set address v m) /\
        S (List.length (updateAlert cfg t address score lvl rsn m)) =
          List.length (map_set address v m))).
Proof.
  unfold updateAlert. cbv zeta.
  match goal with |- context [map_set address ?v m] => exists v end.
  split; [destruct (map_get address m); reflexivity|].
  split; [destruct (map_get address m); reflexivity|].
  split; [destruct (map_get address m); reflexivity|].
  split; [destruct (map_get address m); reflexivity|].
  split; [intros old Hold; rewrite Hold; auto|].
  split; [intros Hn; rewrite Hn; auto|].
  match goal with |- context [map_set address ?v m] => set (m1 := map_set address v m) end.
  assert (Hne : m1 <> []).
  { unfold m1. destruct m as [|[k' v'] m']; simpl; [|destruct (String.eqb address k')];
      discriminate. }
  clearbody m1.
  destruct (Z.ltb_spec (maxAlerts cfg) (Z.of_nat (List.length m1))) as [Ho | Ho];
    [right | left; auto].
  split; [exact Ho|].
  destruct (sort_by_ts m1) as [|[k w] rest] eqn:Es.
  - exfalso. destruct m1 as [|x0 r0]; [apply Hne; reflexivity|].
    assert (H : In x0 (sort_by_ts (x0 :: r0)))
      by (unfold sort_by_ts; apply In_sort_acc; left; left; reflexivity).
    rewrite Es in H. exact H.
  - destruct (sort_by_ts_head m1 (k, w) rest Es) as [Hin Hmin].
    exists k, w. split; [exact Hin|]. split; [exact Hmin|]. split; [reflexivity|].
    simpl. apply map_delete_in. apply in_map_iff. exists (k, w). auto.
Qed.

End SentinelFacts3.

(* ================================================================== *)
(** * Wallet history scoring *)

Module WalletFacts.
Import Risk Engine WalletHistory.

Definition destroyed (contractCode : string -> Exc string) (c : string) : bool :=
  isDestroyedCode (catch_default (contractCode c) "0x").

Definition destroyedFlag (c : string) : EvidenceFlag :=
  wflag (String.append "destroyed_" (substring 0 8 c)) "Linked Destroyed Contract" critical 20.

Lemma rugStep_eq (contractCode : string -> Exc string) (s : Z) (f : list EvidenceFlag)
    (l : list string) (c : string) :
  rugStep contractCode (s, f, l) c =
  if destroyed contractCode c then (s + 18, f ++ [destroyedFlag c], l ++ [c]) else (s, f, l).
Proof. reflexivity. Qed.

Lemma fold_rugStep (contractCode : string -> Exc string) (cs : list string)
    (s : Z) (f : list EvidenceFlag) (l : list string) :
  fold_left (rugStep contractCode) cs (s, f, l) =
  (s + 18 * Z.of_nat (List.length (filter (destroyed contractCode) cs)),
   f ++ map destroyedFlag (filter (destroyed contractCode) cs),
   l ++ filter (destroyed contractCode) cs).
Proof.
  revert s f l. induction cs as [|c cs IH]; intros s f l; cbn [fold_left filter].
  - rewrite !app_nil_r. cbn [List.length Z.of_nat]. rewrite Z.add_0_r. reflexivity.
  - rewrite rugStep_eq. destruct (destroyed contractCode c); rewrite IH.
    + cbn [List.length map]. rewrite <- !app_assoc. cbn [app].
      f_equal. f_equal. lia.
    + reflexivity.
Qed.

Lemma deployerFlags_props (n : Z) :
  0 <= snd (deployerFlags n) <= ScamDbFacts.sum_weights (fst (deployerFlags n)) /\
  filter (is_sev critical) (fst (deployerFlags n)) = [].
Proof.
  unfold deployerFlags.
  destruct (0 <? n); [destruct (10 <? n); [|destruct (3 <? n)]|]; simpl; split; lia || reflexivity.
Qed.

Lemma sum_weights_destroyed (l : list string) :
  ScamDbFacts.sum_weights (map destroyedFlag l) = 20 * Z.of_nat (List.length l).
Proof.
  induction l as [|c l IH]; [reflexivity|].
  unfold ScamDbFacts.sum_weights in *. cbn [map fold_right List.length].
  rewrite IH, Nat2Z.inj_succ. unfold destroyedFlag, wflag. cbn [riskWeight]. lia.
Qed.

Lemma critical_destroyed (l : list string) :
  filter (is_sev critical) (map destroyedFlag l) = map destroyedFlag l.
Proof. induction l as [|c l IH]; simpl; [reflexivity|]. rewrite IH. reflexivity. Qed.


(** X25. If the code lookup of one of the first five contracts a wallet
    deployed fails, or returns empty code, the wallet analyzer reports a
    linked rugpull, and the engine then rates the address at least 80,
    "very high", whatever the other four analyzers report. *)
Theorem wallet_destroyed_contract_floor (deployedContracts : list string)
    (contractCode : string -> Exc string) (funnelPattern rapidMovement newInboundOnly : bool)
    (c0 : string) (Hin : In c0 (firstn 5 deployedContracts))
    (Hcode : contractCode c0 = Throw \/
             exists code, contractCode c0 = Ok code /\ (String.length code <= 2)%nat) :
  let w := scoreWallet deployedContracts contractCode funnelPattern rapidMovement newInboundOnly in
  In c0 (w_linkedRugpulls w) /\
  forall c o t s,
    80 <= risk_score (analyzeRiskIntelligence c o w t s) /\
    risk_level (analyzeRiskIntelligence c o w t s) = VeryHigh.
Proof.
  intros w.
  assert (Hd : destroyed contractCode c0 = true).
  { unfold destroyed, isDestroyedCode.
    destruct Hcode as [-> | (code & -> & Hl)]; [reflexivity|].
    simpl. apply orb_true_iff. right. apply Z.leb_le. lia. }
  assert (Hl : In c0 (w_linkedRugpulls w)).
  { unfold w, scoreWallet.
    destruct (deployerFlags (Z.of_nat (List.length deployedContracts))) as [fl0 sc0].
    rewrite fold_rugStep.
    destruct funnelPattern, rapidMovement, newInboundOnly; cbn [w_linkedRugpulls];
      apply filter_In; split; assumption. }
  split; [exact Hl|].
  intros c o t s.
  assert (H80 : 80 <= risk_score (analyzeRiskIntelligence c o w t s)).
  { rewrite EngineFacts.final_is_chain. unfold EngineFacts.spec_floor_chain. cbv zeta.
    destruct (w_linkedRugpulls w) as [|x r] eqn:E; [contradiction|].
    cbn [List.length Nat.eqb negb]. rewrite orb_true_r.
    apply Z.min_glb; [|lia].
    apply EngineFacts.raise_if_above. apply EngineFacts.raise_if_true. }
  split; [exact H80|].
  rewrite EngineFacts2.risk_level_of_score. apply EngineFacts2.getRiskLevel_very_high. exact H80.
Qed.

Lemma wallet_destroyed_contract_floor_witness :
  In "0xdead" (firstn 5 ["0xdead"]) /\
  (@Throw string = Throw \/ exists code, @Throw string = Ok code /\ (String.length code <= 2)%nat) /\
  (80 <= risk_score (analyzeRiskIntelligence (mkContract false [] 0) (mkOnChain [] 0 false)
          (scoreWallet ["0xdead"] (fun _ => Throw) false false false)
          (mkTransparency [] 0) (mkScam [] 0 false false false)) /\
   risk_level (analyzeRiskIntelligence (mkContract false [] 0) (mkOnChain [] 0 false)
          (scoreWallet ["0xdead"] (fun _ => Throw) false false false)
          (mkTransparency [] 0) (mkScam [] 0 false false false)) = VeryHigh).
Proof.
  split; [left; reflexivity|]. split; [left; reflexivity|].
  apply (wallet_destroyed_contract_floor ["0xdead"] (fun _ => Throw) false false false "0xdead");
    [left; reflexivity | left; reflexivity].
Defined.

End WalletFacts.

(* ================================================================== *)
(** * Registry reads *)

Module RegistryFacts2.
Import Registry.

Lemma riskLevelToString_in (l : Z) :
  In (riskLevelToString l) ["LOW"; "MEDIUM"; "HIGH"; "UNKNOWN"].
Proof.
  unfold riskLevelToString. destruct (l <? 0); [simpl; tauto|].
  destruct (nth_error RISK_LEVEL_LABELS (Z.to_nat l)) as [s|] eqn:E; [|simpl; tauto].
  apply nth_error_In in E. unfold js_or.
  destruct E as [<- | [<- | [<- | []]]]; simpl; tauto.
Qed.

Lemma promise_all_throw {A B} (f : A -> Exc B) (xs : list A) :
  (exists x, In x xs /\ f x = Throw) -> promise_all f xs = Throw.
Proof.
  induction xs as [|x xs IH]; intros (y & Hy & Hf); [destruct Hy|].
  simpl. destruct Hy as [<- | Hy].
  - rewrite Hf. reflexivity.
  - destruct (f x); simpl; [|reflexivity].
    rewrite IH by eauto. reflexivity.
Qed.

Lemma promise_all_ok {A B} (f : A -> Exc B) (xs : list A) :
  (forall x, In x xs -> f x <> Throw) ->
  exists ys, promise_all f xs = Ok ys /\ Forall2 (fun x y => f x = Ok y) xs ys.
Proof.
  induction xs as [|x xs IH]; intros H; [exists []; split; [reflexivity | constructor]|].
  destruct (f x) as [y|] eqn:Ef; [|exfalso; apply (H x); [left; reflexivity | exact Ef]].
  destruct IH as (ys & Hys & Hf2); [intros z Hz; apply H; right; exact Hz|].
  exists (y :: ys). simpl. rewrite Ef. simpl. rewrite Hys. simpl.
  split; [reflexivity | constructor; assumption].
Qed.

(** X26. [getReportsForTarget] is all or nothing: it returns no report
    when the index lookup fails or when any single report lookup fails, and
    otherwise one report per index, in index order; every report's level
    label is "LOW", "MEDIUM", "HIGH" or "UNKNOWN". *)
Theorem getReportsForTarget_all_or_nothing (reportsByTarget : Exc (list Z))
    (getReport : Z -> Exc RawReport) :
  let res := getReportsForTarget reportsByTarget getReport in
  (reportsByTarget = Throw -> res = []) /\
  (forall indices, reportsByTarget = Ok indices ->
     ((exists i, In i indices /\ getReport i = Throw) -> res = []) /\
     ((forall i, In i indices -> getReport i <> Throw) ->
        exists raws, Forall2 (fun i r => getReport i = Ok r) indices raws /\
                     res = map toOnChainReport raws)) /\
  Forall (fun r => In (oc_riskLevel r) ["LOW"; "MEDIUM"; "HIGH"; "UNKNOWN"]) res.
Proof.
  intros res.
  assert (Hlev : forall raws, Forall (fun r => In (oc_riskLevel r) ["LOW"; "MEDIUM"; "HIGH"; "UNKNOWN"])
                                (map toOnChainReport raws)).
  { intros raws. apply Forall_map. apply Forall_forall. intros r _. apply riskLevelToString_in. }
  split; [|split].
  - intros ->. reflexivity.
  - intros indices ->. unfold res, getReportsForTarget. simpl. split.
    + intros Hx. destruct indices as [|i0 rest]; [destruct Hx as (i & [] & _)|].
      rewrite promise_all_throw by exact Hx. reflexivity.
    + intros Hok. destruct (promise_all_ok getReport indices Hok) as (raws & Hp & Hf).
      exists raws. split; [exact Hf|].
      destruct indices as [|i0 rest].
      * inversion Hf. reflexivity.
      * rewrite Hp. reflexivity.
  - unfold res, getReportsForTarget. destruct reportsByTarget as [indices|]; [|constructor].
    cbn [exc_bind]. destruct indices as [|i0 rest]; [constructor|].
    destruct (promise_all getReport (i0 :: rest)); cbn [exc_bind catch_default];
      [apply Hlev | constructor].
Qed.

End RegistryFacts2.

(* ================================================================== *)
(** * Response cache of the risk route *)

Module CacheFacts.
Import RiskCache.

Section WithData.
Context {Data : Type}.

Lemma cache_get_set_same (k : string) (v : CacheEntry Data) (c : Cache Data) :
  cache_get k (cache_set k v c) = Some v.
Proof.
  induction c as [|[k' v'] c IH]; simpl; [rewrite String.eqb_refl; reflexivity|].
  destruct (String.eqb k k') eqn:E; simpl; [rewrite String.eqb_refl; reflexivity|].
  rewrite E. exact IH.
Qed.

Lemma In_keys_cache_set (x k : string) (v : CacheEntry Data) (c : Cache Data) :
  In x (map fst (cache_set k v c)) -> x = k \/ In x (map fst c).
Proof.
  induction c as [|[k' v'] c IH]; simpl; [intuition|].
  destruct (String.eqb k k') eqn:E; simpl.
  - apply String.eqb_eq in E. subst. tauto.
  - intros [H | H]; [tauto|]. destruct (IH H); tauto.
Qed.

Lemma NoDup_cache_set (k : string) (v : CacheEntry Data) (c : Cache Data) :
  NoDup (map fst c) -> NoDup (map fst (cache_set k v c)).
Proof.
  induction c as [|[k' v'] c IH]; simpl; intros H.
  - constructor; [intros []| constructor].
  - inversion H as [|? ? Hn Hd]; subst.
    destruct (String.eqb k k') eqn:E; simpl.
    + apply String.eqb_eq in E. subst. constructor; assumption.
    + constructor; [|apply IH; exact Hd].
      intros Hin. apply In_keys_cache_set in Hin as [Hin | Hin]; [|contradiction].
      subst. rewrite String.eqb_refl in E. discriminate.
Qed.

Lemma In_keys_filter (p : string * CacheEntry Data -> bool) (x : string) (c : Cache Data) :
  In x (map fst (filter p c)) -> In x (map fst c).
Proof.
  intros H. apply in_map_iff in H as (kv & <- & Hkv). apply filter_In in Hkv as [Hkv _].
  apply in_map. exact Hkv.
Qed.

Lemma NoDup_filter_keys (p : string * CacheEntry Data -> bool) (c : Cache Data) :
  NoDup (map fst c) -> NoDup (map fst (filter p c)).
Proof.
  induction c as [|[k v] c IH]; simpl; intros H; [exact H|].
  inversion H as [|? ? Hn Hd]; subst.
  destruct (p (k, v)); simpl; [|apply IH; exact Hd].
  constructor; [|apply IH; exact Hd].
  intros Hin. apply Hn. apply In_keys_filter with p. exact Hin.
Qed.

Lemma cache_get_not_in (k : string) (c : Cache Data) :
  ~ In k (map fst c) -> cache_get k c = None.
Proof.
  induction c as [|[k' v'] c IH]; simpl; intros H; [reflexivity|].
  destruct (String.eqb k k') eqn:E.
  - apply String.eqb_eq in E. subst. tauto.
  - apply IH. tauto.
Qed.

Lemma cache_get_filter (p : string * CacheEntry Data -> bool) (k : string) (v : CacheEntry Data)
    (c : Cache Data) :
  NoDup (map fst c) -> cache_get k c = Some v ->
  cache_get k (filter p c) = if p (k, v) then Some v else None.
Proof.
  induction c as [|[k' v'] c IH]; simpl; intros Hnd Hg; [discriminate|].
  inversion Hnd as [|? ? Hn Hd]; subst.
  destruct (String.eqb k k') eqn:E.
  - injection Hg as <-. apply String.eqb_eq in E. subst k'.
    destruct (p (k, v')) eqn:Ep; simpl.
    + rewrite String.eqb_refl. reflexivity.
    + apply cache_get_not_in. intros Hin. apply Hn. apply In_keys_filter with p. exact Hin.
  - destruct (p (k', v')); simpl; [rewrite E|]; apply IH; assumption.
Qed.

Lemma NoDup_cache_delete (k : string) (c : Cache Data) :
  NoDup (map fst c) -> NoDup (map fst (cache_delete k c)).
Proof.
  induction c as [|[k' v'] c IH]; simpl; intros H; [exact H|].
  inversion H as [|? ? Hn Hd]; subst.
  destruct (String.eqb k k'); [exact Hd|]. simpl.
  constructor; [|apply IH; exact Hd].
  intros Hin. apply Hn. clear -Hin.
  induction c as [|[k2 v2] c IH2]; simpl in *; [exact Hin|].
  destruct (String.eqb k k2); [right; exact Hin|]. simpl in Hin. tauto.
Qed.

Lemma cache_get_delete_same (k : string) (c : Cache Data) :
  NoDup (map fst c) -> cache_get k (cache_delete k c) = None.
Proof.
  induction c as [|[k' v'] c IH]; simpl; intros H; [reflexivity|].
  inversion H as [|? ? Hn Hd]; subst.
  destruct (String.eqb k k') eqn:E.
  - apply String.eqb_eq in E. subst. apply cache_get_not_in. exact Hn.
  - simpl. rewrite E. apply IH. exact Hd.
Qed.

End WithData.



(** X28. The size-triggered sweep of [setCache] only drops entries that
    have expired at the sweep time: it keeps every other entry, adds
    nothing, and runs only when the cache holds more than 1000 entries;
    so the cache is not bounded by 1000 when its entries are fresh. *)
Theorem setCache_sweep {Data : Type} (t t2 : Z) (key : string) (d : Data) (c : Cache Data) :
  let c1 := cache_set key (mkEntry d (t + CACHE_TTL_MS)) c in
  let c2 := setCache t t2 key d c in
  (forall kv, In kv c1 -> t2 < expiry (snd kv) -> In kv c2) /\
  (forall kv, In kv c2 -> In kv c1) /\
  (1000 < Z.of_nat (List.length c1) -> Forall (fun kv => t2 < expiry (snd kv)) c2) /\
  (Z.of_nat (List.length c1) <= 1000 -> c2 = c1).
Proof.
  intros c1 c2. unfold c2, setCache. fold c1.
  destruct (Z.ltb_spec 1000 (Z.of_nat (List.length c1))) as [Hs | Hs].
  - split; [|split; [|split]].
    + intros kv Hin Hlt. apply filter_In. split; [exact Hin|].
      destruct (Z.geb_spec t2 (expiry (snd kv))); [lia | reflexivity].
    + intros kv Hin. apply filter_In in Hin. tauto.
    + intros _. apply Forall_forall. intros kv Hin. apply filter_In in Hin as [_ Hp].
      destruct (Z.geb_spec t2 (expiry (snd kv))); [discriminate | lia].
    + intros H. lia.
  - split; [auto|]. split; [auto|]. split; [intros H; lia | reflexivity].
Qed.

End CacheFacts.
